(** * Room summary card (src/card.ts)

    A shallow embedding of the [RoomSummaryCard] custom element: its two
    entry points ([setConfig] and the [hass] setter), the private getters
    that compute the room name, the climate label and the area statistics,
    and [render] with its problem indicator.

    JavaScript values are embedded as a small universe [jsval]; objects are
    finite maps from property names to values, so that two objects with the
    same properties are the same value whatever the order in which the
    properties were written.  Strings are sequences of 8-bit characters (a
    non-ASCII character such as the degree sign is its UTF-8 encoding);
    the string methods whose result depends on the UTF-16 code units of a
    string or on the Unicode case mapping ([charAt], [slice], [toUpperCase])
    are those of the JavaScript engine (class [StringPrototype]), fixed here
    on ASCII characters only.  Numbers (IEEE doubles) are not part of the
    universe: the card reads no numeric property.

    The card imports [./helpers], [./styles] and [./action-handler]; those
    modules are interfaces of the development (class [Helpers]).  *)

From Stdlib Require Import Ascii String.
From stdpp Require Import gmap strings list fin_maps pretty.

#[local] Set Warnings "-register-all".
#[local] Open Scope string_scope.

(** ** Strings: the [String.prototype] methods the card calls *)

Module JS.

(** [s.split(sep)] for a one-character ASCII separator: the pieces between
    the occurrences of [sep]; a string without separator is a single piece.
    No byte of the encoding of a non-ASCII character is an ASCII character,
    so the pieces are those of the JavaScript method. *)
Fixpoint split (sep : ascii) (s : string) : list string :=
  match s with
  | EmptyString => [EmptyString]
  | String c r =>
      if decide (c = sep) then EmptyString :: split sep r
      else match split sep r with
           | [] => [String c EmptyString]
           | w :: ws => String c w :: ws
           end
  end.

(** [words.join(sep)]. *)
Fixpoint join (sep : string) (words : list string) : string :=
  match words with
  | [] => EmptyString
  | [w] => w
  | w :: ws => w +:+ sep +:+ join sep ws
  end.

End JS.

(** The ASCII characters, and the methods [charAt], [slice] and
    [toUpperCase] as they are on strings of ASCII characters, where a
    character is one UTF-16 code unit and only the letters [a] to [z] have
    another upper-case form. *)
Module ASCII.

Definition is_ascii (c : ascii) : bool := (nat_of_ascii c <? 128)%nat.

(** [only s]: every character of [s] is an ASCII character. *)
Fixpoint only (s : string) : bool :=
  match s with
  | EmptyString => true
  | String c r => is_ascii c && only r
  end.

Fixpoint charAt (s : string) (i : nat) : string :=
  match s, i with
  | EmptyString, _ => EmptyString
  | String c _, O => String c EmptyString
  | String _ r, S j => charAt r j
  end.

Fixpoint slice (s : string) (start : nat) {struct start} : string :=
  match start, s with
  | O, _ => s
  | S _, EmptyString => EmptyString
  | S n, String _ r => slice r n
  end.

Definition upper (c : ascii) : ascii :=
  let n := nat_of_ascii c in
  if (97 <=? n)%nat && (n <=? 122)%nat then ascii_of_nat (n - 32) else c.

Fixpoint toUpperCase (s : string) : string :=
  match s with
  | EmptyString => EmptyString
  | String c r => String (upper c) (toUpperCase r)
  end.

End ASCII.

(** [s.charAt(i)], [s.slice(start)] and [s.toUpperCase()] of the JavaScript
    engine.  [charAt] and [slice] count UTF-16 code units and [toUpperCase]
    follows the Unicode case mapping, under which a character may become
    another non-ASCII character or several characters.  The card is verified
    for every engine: the methods are fixed only on the empty string and on
    ASCII characters, where they are the functions of [ASCII]; the card calls
    [charAt] at index 0 and [slice] from index 1 only. *)
Class StringPrototype : Type := {
  charAt : string → nat → string;
  slice : string → nat → string;
  toUpperCase : string → string;
  charAt_empty : charAt EmptyString 0 = EmptyString;
  charAt_ascii : ∀ c r,
    ASCII.is_ascii c = true → charAt (String c r) 0 = String c EmptyString;
  slice_empty : slice EmptyString 1 = EmptyString;
  slice_ascii : ∀ c r, ASCII.is_ascii c = true → slice (String c r) 1 = r;
  toUpperCase_ascii : ∀ s,
    ASCII.only s = true → toUpperCase s = ASCII.toUpperCase s;
}.

(** ** JavaScript values *)

Inductive jsval : Type :=
  | JUndef
  | JNull
  | JBool (b : bool)
  | JStr (s : string)
  | JArr (elems : list jsval)
  | JObj (props : gmap string jsval).

Fixpoint jsval_eq_dec (a b : jsval) : Decision (a = b).
Proof.
  refine (match a, b with
          | JUndef, JUndef => left eq_refl
          | JNull, JNull => left eq_refl
          | JBool x, JBool y => cast_if (decide (x = y))
          | JStr x, JStr y => cast_if (decide (x = y))
          | JArr x, JArr y => cast_if (@list_eq_dec _ jsval_eq_dec x y)
          | JObj x, JObj y =>
              cast_if (@decide (x = y) (@gmap_eq_dec _ _ _ _ jsval_eq_dec _ _))
          | _, _ => right _
          end); abstract congruence.
Defined.

#[global] Instance jsval_eq : EqDecision jsval := jsval_eq_dec.

#[global] Instance jsval_inhabited : Inhabited jsval := populate JUndef.

(** A plain object: own enumerable properties by name.  A property may be
    present with the value [undefined]. *)
Abbreviation obj := (gmap string jsval).

(** [o.name] on an object: the property, or [undefined] when absent. *)
Definition prop (o : obj) (name : string) : jsval := default JUndef (o !! name).

Notation "o .[ name ]" := (prop o name) (at level 1, left associativity, format "o .[ name ]").

(** ToBoolean, as applied by [!], [||], [&&] and [?:]. *)
Definition ToBoolean (v : jsval) : bool :=
  match v with
  | JUndef | JNull => false
  | JBool b => b
  | JStr s => negb (bool_decide (s = EmptyString))
  | JArr _ | JObj _ => true
  end.

(** ToString, as applied to the holes of a template literal.  An array is
    its elements joined by commas, [undefined] and [null] elements giving
    the empty string. *)
Fixpoint ToString (v : jsval) : string :=
  match v with
  | JUndef => "undefined"
  | JNull => "null"
  | JBool true => "true"
  | JBool false => "false"
  | JStr s => s
  | JArr elems =>
      JS.join "," ((fix each (l : list jsval) : list string :=
                      match l with
                      | [] => []
                      | JUndef :: l' => EmptyString :: each l'
                      | JNull :: l' => EmptyString :: each l'
                      | x :: l' => ToString x :: each l'
                      end) elems)
  | JObj _ => "[object Object]"
  end.

(** [a === b].  Primitives are compared by value.  Arrays and objects are
    compared by reference: two values read from different objects are never
    the same reference. *)
Definition strict_equal (a b : jsval) : bool :=
  match a, b with
  | JUndef, JUndef | JNull, JNull => true
  | JBool x, JBool y => bool_decide (x = y)
  | JStr x, JStr y => bool_decide (x = y)
  | _, _ => false
  end.

(** Modelled from the spec: [fast-deep-equal] (required at card.ts:29) is an
    npm dependency and not part of the sources.  The specification describes
    it as deep structural equality: value semantics, objects with unordered
    keys compared by content, ordered sequences compared element-wise in
    order.  Two arrays are equal when they have the same length and equal
    elements at each index; two objects when they have the same number of
    keys and every key of the first is a key of the second with an equal
    value; two primitives when they are identical. *)
Fixpoint equal (a b : jsval) {struct a} : bool :=
  match a, b with
  | JArr xs, JArr ys =>
      (fix each (xs ys : list jsval) : bool :=
         match xs, ys with
         | [], [] => true
         | x :: xs', y :: ys' => equal x y && each xs' ys'
         | _, _ => false
         end) xs ys
  | JObj p, JObj q =>
      bool_decide (size p = size q) &&
      map_fold (λ k v ok,
                  ok && match q !! k with
                        | Some w => equal v w
                        | None => false
                        end) true p
  | _, _ => strict_equal a b
  end.

(** The number of constructors of a value, the measure of the proofs about
    [equal]. *)
Fixpoint jsize (a : jsval) : nat :=
  match a with
  | JArr xs => S (foldr (λ x n, jsize x + n) 0 xs)
  | JObj p => S (map_fold (λ _ v n, jsize v + n) 0 p)
  | _ => 1
  end.

(** ** Exceptions *)

Inductive exn : Type :=
  | TypeError (msg : string)
  | Thrown (v : jsval).

Inductive result (A : Type) : Type :=
  | Ok (a : A)
  | Throw (e : exn).

Arguments Ok {A} a.
Arguments Throw {A} e.

#[global] Instance exn_eq : EqDecision exn.
Proof. solve_decision. Defined.

#[global] Instance result_eq {A} `{EqDecision A} : EqDecision (result A).
Proof. solve_decision. Defined.

#[global] Instance result_ret : MRet result := λ A, Ok.

#[global] Instance result_bind : MBind result :=
  λ A B f m, match m with Ok a => f a | Throw e => Throw e end.

#[global] Instance result_fmap : FMap result :=
  λ A B f m, match m with Ok a => Ok (f a) | Throw e => Throw e end.

Definition is_Ok {A} (r : result A) : Prop := ∃ a, r = Ok a.

Definition is_Throw {A} (r : result A) : Prop := ∃ e, r = Throw e.

(** [v.name] on an arbitrary value: reading a property of [undefined] or
    [null] raises a TypeError; a primitive or an array has none of the
    properties the card reads. *)
Definition get_prop (v : jsval) (name : string) : result jsval :=
  match v with
  | JUndef => Throw (TypeError ("Cannot read properties of undefined (reading '" +:+ name +:+ "')"))
  | JNull => Throw (TypeError ("Cannot read properties of null (reading '" +:+ name +:+ "')"))
  | JObj o => Ok o.[name]
  | _ => Ok JUndef
  end.

(** [this._x.name] where the field [_x] holds an object or is still
    [undefined]: gives the object whose property is read. *)
Definition deref {A} (field : option A) (name : string) : result A :=
  match field with
  | Some o => Ok o
  | None => Throw (TypeError ("Cannot read properties of undefined (reading '" +:+ name +:+ "')"))
  end.

(** [v?.name] on the result of a lookup that is an object or [undefined]. *)
Definition optional_prop (v : option obj) (name : string) : jsval :=
  match v with
  | Some o => o.[name]
  | None => JUndef
  end.

(** [v.toUpperCase()]: only a string has the method. *)
Definition toUpperCase_method `{StringPrototype} (v : jsval) : result string :=
  match v with
  | JStr s => Ok (toUpperCase s)
  | JUndef => Throw (TypeError "Cannot read properties of undefined (reading 'toUpperCase')")
  | JNull => Throw (TypeError "Cannot read properties of null (reading 'toUpperCase')")
  | _ => Throw (TypeError "toUpperCase is not a function")
  end.

(** [v.split(sep)]: only a string has the method. *)
Definition split_method (v : jsval) (sep : ascii) : result (list string) :=
  match v with
  | JStr s => Ok (JS.split sep s)
  | JUndef => Throw (TypeError "Cannot read properties of undefined (reading 'split')")
  | JNull => Throw (TypeError "Cannot read properties of null (reading 'split')")
  | _ => Throw (TypeError "split is not a function")
  end.

(** [Object.keys(v)].  Only the number of keys and membership are used by
    the card, so the enumeration order of an object is immaterial. *)
Definition Object_keys (v : jsval) : result (list string) :=
  match v with
  | JUndef | JNull => Throw (TypeError "Cannot convert undefined or null to object")
  | JBool _ => Ok []
  | JStr s => Ok (pretty <$> seq 0 (String.length s))
  | JArr elems => Ok (pretty <$> seq 0 (length elems))
  | JObj o => Ok (map_to_list o).*1
  end.

(** [keys.includes(v)] on an array of strings. *)
Definition includes (keys : list string) (v : jsval) : bool :=
  match v with
  | JStr s => bool_decide (s ∈ keys)
  | _ => false
  end.

(** [xs.filter(p)] with a callback that may throw. *)
Fixpoint filterM {A} (p : A → result bool) (xs : list A) : result (list A) :=
  match xs with
  | [] => Ok []
  | x :: xs' =>
      b ← p x;
      ys ← filterM p xs';
      Ok (if b : bool then x :: ys else ys)
  end.

(** ** The collaborators of the card *)

(** Objects the card receives and passes on: the configuration, the
    projection of one entity for display, and the host snapshot. *)
Abbreviation Config := (gmap string jsval).
Abbreviation EntityInformation := (gmap string jsval).
Abbreviation HomeAssistant := (gmap string jsval).

(** The functions the card imports from [./styles], [./action-handler] and
    [./helpers] (card.ts:15-25).  Their sources are not part of the
    development: the card is verified for every implementation of them.
    The lookups of the entity query layer may throw; [getState] answers
    [undefined] for an entity without live state.  The element [this] that
    the card passes to [createStateIcon] and [handleClickAction] is left
    out. *)
Class Helpers : Type := {
  Style : Type;
  Handler : Type;
  Directive : Type;
  Icon : Type;
  (** the [textStyle] component of [getEntityIconStyles(state)] *)
  getEntityIconStyles : jsval → Style;
  getCardStyles : option HomeAssistant → option Config → jsval → Style;
  handleClickAction : EntityInformation → Handler;
  actionHandler : EntityInformation → Directive;
  createStateIcon : option HomeAssistant → EntityInformation → list string → Icon;
  getDevice : HomeAssistant → string → result jsval;
  getEntity : HomeAssistant → string → result jsval;
  getIconEntities : HomeAssistant → option Config → result (list EntityInformation);
  (** the pair [{problemEntities, problemExists}] *)
  getProblemEntities : HomeAssistant → jsval → result (list string * bool);
  getRoomEntity : HomeAssistant → option Config → result EntityInformation;
  getState : HomeAssistant → jsval → option (gmap string jsval);
}.

(** ** The state of a card *)

(** The fields of [RoomSummaryCard] (card.ts:35-66).  A field declared with
    [!] and no initialiser is [undefined] until its first assignment. *)
Record Card : Type := {
  _config : option Config;
  _states : option (list EntityInformation);
  _roomEntity : option EntityInformation;
  _problemEntities : list string;
  _problemExists : bool;
  _hass : option HomeAssistant;
}.

#[global] Instance Card_eq : EqDecision Card.
Proof. solve_decision. Defined.

(** The card as its constructor leaves it (card.ts:54, 60, 68-74). *)
Definition new_card : Card :=
  {| _config := None; _states := None; _roomEntity := None;
     _problemEntities := []; _problemExists := false; _hass := None |}.

(** The fields as JavaScript values, for [equal] and [hasChanged]. *)
Definition config_val (v : option Config) : jsval := from_option JObj JUndef v.

Definition entity_val (v : option EntityInformation) : jsval := from_option JObj JUndef v.

Definition states_val (v : option (list EntityInformation)) : jsval :=
  from_option (λ l, JArr (JObj <$> l)) JUndef v.

Definition ids_val (v : list string) : jsval := JArr (JStr <$> v).

(** The reactive properties, those declared with [@state()]. *)
Inductive field : Type :=
  | config_field
  | states_field
  | roomEntity_field
  | problemEntities_field
  | problemExists_field.

#[global] Instance field_eq : EqDecision field.
Proof. solve_decision. Defined.

(** One run of the accessor of a reactive property: the property assigned,
    and whether the accessor requested a render. *)
Record event : Type := Assigned { ev_field : field; ev_render : bool }.

#[global] Instance event_eq : EqDecision event.
Proof. solve_decision. Defined.

(** [assigned f log]: the log holds an assignment to [f]. *)
Definition assigned (f : field) (log : list event) : bool :=
  bool_decide (f ∈ ev_field <$> log).

(** [render_requested f log]: an assignment to [f] requested a render. *)
Definition render_requested (f : field) (log : list event) : bool :=
  bool_decide (Assigned f true ∈ log).

(** The accessor requests a render when [hasChanged(value, old)]; the
    default test is that the two are not identical.  The card assigns an
    array or an object only under [!equal(value, old)], and [equal] answers
    true on one and the same reference, so an assigned array or object is
    never the stored reference. *)
Definition hasChanged (value old : jsval) : bool := negb (strict_equal value old).

(** The change gate on one reactive property over one call, where [fresh]
    is the derived value, [stored] the value held before the call and
    [held] the value held after it: the property is assigned, by the derived
    value, exactly when that value is not deeply equal to the stored one,
    and a render is requested exactly then. *)
Definition gated {A} (f : field) (val : A → jsval) (fresh stored held : A)
    (log : list event) : Prop :=
  held = (if equal (val fresh) (val stored) then stored else fresh) ∧
  assigned f log = negb (equal (val fresh) (val stored)) ∧
  render_requested f log = negb (equal (val fresh) (val stored)).

(** The change gate on a property that holds a primitive, a boolean, of
    which there are no two references to one value: what the card holds
    after the call, and whether a render is requested. *)
Definition value_gated {A} (f : field) (val : A → jsval) (fresh stored held : A)
    (log : list event) : Prop :=
  held = (if equal (val fresh) (val stored) then stored else fresh) ∧
  render_requested f log = negb (equal (val fresh) (val stored)).

(** ** Methods that assign: state, log of assignments, exceptions *)

Record outcome (A : Type) : Type := Outcome {
  out_card : Card;
  out_log : list event;
  out_res : result A;
}.

Arguments Outcome {A} _ _ _.
Arguments out_card {A} _.
Arguments out_log {A} _.
Arguments out_res {A} _.

Definition action (A : Type) : Type := Card → outcome A.

#[global] Instance action_ret : MRet action := λ A a this, Outcome this [] (Ok a).

(** Sequencing: the second statement runs in the state the first one left,
    unless the first one threw. *)
#[global] Instance action_bind : MBind action := λ A B f m this,
  match m this with
  | Outcome this' log (Ok a) =>
      match f a this' with
      | Outcome this'' log' r => Outcome this'' (log ++ log') r
      end
  | Outcome this' log (Throw e) => Outcome this' log (Throw e)
  end.

(** Reading [this]. *)
Definition get : action Card := λ this, Outcome this [] (Ok this).

(** An expression that may throw. *)
Definition lift {A} (r : result A) : action A := λ this, Outcome this [] r.

(** [if (c) body]. *)
Definition when (c : bool) (body : action ()) : action () :=
  if c then body else mret ().

(** [this._hass = hass]: a plain field. *)
Definition set__hass (hass : HomeAssistant) : action () := λ this,
  Outcome {| _config := _config this; _states := _states this;
             _roomEntity := _roomEntity this;
             _problemEntities := _problemEntities this;
             _problemExists := _problemExists this; _hass := Some hass |}
          [] (Ok ()).

(** [this._config = v] *)
Definition set__config (v : Config) : action () := λ this,
  Outcome {| _config := Some v; _states := _states this;
             _roomEntity := _roomEntity this;
             _problemEntities := _problemEntities this;
             _problemExists := _problemExists this; _hass := _hass this |}
          [Assigned config_field (hasChanged (JObj v) (config_val (_config this)))]
          (Ok ()).

(** [this._states = v] *)
Definition set__states (v : list EntityInformation) : action () := λ this,
  Outcome {| _config := _config this; _states := Some v;
             _roomEntity := _roomEntity this;
             _problemEntities := _problemEntities this;
             _problemExists := _problemExists this; _hass := _hass this |}
          [Assigned states_field
             (hasChanged (states_val (Some v)) (states_val (_states this)))]
          (Ok ()).

(** [this._roomEntity = v] *)
Definition set__roomEntity (v : EntityInformation) : action () := λ this,
  Outcome {| _config := _config this; _states := _states this;
             _roomEntity := Some v;
             _problemEntities := _problemEntities this;
             _problemExists := _problemExists this; _hass := _hass this |}
          [Assigned roomEntity_field
             (hasChanged (JObj v) (entity_val (_roomEntity this)))]
          (Ok ()).

(** [this._problemEntities = v] *)
Definition set__problemEntities (v : list string) : action () := λ this,
  Outcome {| _config := _config this; _states := _states this;
             _roomEntity := _roomEntity this;
             _problemEntities := v;
             _problemExists := _problemExists this; _hass := _hass this |}
          [Assigned problemEntities_field
             (hasChanged (ids_val v) (ids_val (_problemEntities this)))]
          (Ok ()).

(** [this._problemExists = v] *)
Definition set__problemExists (v : bool) : action () := λ this,
  Outcome {| _config := _config this; _states := _states this;
             _roomEntity := _roomEntity this;
             _problemEntities := _problemEntities this;
             _problemExists := v; _hass := _hass this |}
          [Assigned problemExists_field
             (hasChanged (JBool v) (JBool (_problemExists this)))]
          (Ok ()).

(** ** The rendered template *)

(** The result of [_renderProblemIndicator]: [nothing], or the [ha-icon]
    element with its [.icon], [class] and [style] attributes. *)
Inductive Indicator : Type :=
  | nothing
  | ha_icon (icon class style : string).

#[global] Instance Indicator_eq : EqDecision Indicator.
Proof. solve_decision. Defined.

Section card.
Context `{Helpers} `{StringPrototype}.

(** The holes of the template of [render] (card.ts:97-131), in the order in
    which they are evaluated. *)
Record CardTemplate : Type := {
  t_cardStyle : Style;
  t_textStyle : Style;
  t_nameAction : Handler * Directive;
  t_areaName : jsval;
  t_labelAction : Handler * Directive;
  t_label : string;
  t_stats : string;
  t_roomIcon : Icon;
  t_icons : list Icon;
  t_problem : Indicator;
}.

Inductive TemplateResult : Type :=
  | html_empty
  | html_card (t : CardTemplate).

(** [rendered r]: [render] returned the template of a card. *)
Definition rendered (r : result TemplateResult) : bool :=
  match r with
  | Ok (html_card _) => true
  | _ => false
  end.

(** ** [setConfig] (card.ts:145-154) *)

(** The object literal with its two computed defaults and the spread of
    [config]: a property of [config] overwrites a default of the same
    name. *)
Definition cardConfig (config : Config) : Config :=
  config ∪
  <["temperature_sensor" :=
      JStr ("sensor." +:+ ToString config.["area"] +:+ "_climate_air_temperature")]>
    (<["humidity_sensor" :=
         JStr ("sensor." +:+ ToString config.["area"] +:+ "_climate_humidity")]> ∅).

Definition setConfig (config : Config) : action () :=
  this ← get;
  when (negb (equal (JObj (cardConfig config)) (config_val (_config this))))
       (set__config (cardConfig config)).

(** ** The [hass] setter (card.ts:160-182) *)

Definition set_hass (hass : HomeAssistant) : action () :=
  set__hass hass;;
  this ← get;
  states ← lift (getIconEntities hass (_config this));
  roomEntity ← lift (getRoomEntity hass (_config this));
  config ← lift (deref (_config this) "area");
  '(problemEntities, problemExists) ← lift (getProblemEntities hass config.["area"]);
  set__problemExists problemExists;;
  this ← get;
  when (negb (equal (JObj roomEntity) (entity_val (_roomEntity this))))
       (set__roomEntity roomEntity);;
  this ← get;
  when (negb (equal (states_val (Some states)) (states_val (_states this))))
       (set__states states);;
  this ← get;
  when (negb (equal (ids_val problemEntities) (ids_val (_problemEntities this))))
       (set__problemEntities problemEntities).

(** The values a push derives (card.ts:163-168), in the order in which the
    setter evaluates them: the icon entities, the room entity, and the
    problem entities with their flag. *)
Definition derived (hass : HomeAssistant) (this : Card)
  : result (list EntityInformation * EntityInformation * (list string * bool)) :=
  states ← getIconEntities hass (_config this);
  roomEntity ← getRoomEntity hass (_config this);
  config ← deref (_config this) "area";
  problems ← getProblemEntities hass config.["area"];
  Ok (states, roomEntity, problems).

(** The card in which the setter stops when it throws: only the snapshot
    has been stored. *)
Definition stopped (hass : HomeAssistant) (this : Card) : Card :=
  out_card (set__hass hass this).

(** ** [_formatAreaName] (card.ts:188-193) *)

(** The callback [(w) => w.charAt(0).toUpperCase() + w.slice(1)]. *)
Definition capitalize (w : string) : string :=
  toUpperCase (charAt w 0) +:+ slice w 1.

Definition _formatAreaName (this : Card) : result string :=
  config ← deref (_config this) "area";
  words ← split_method config.["area"] "_"%char;
  Ok (JS.join " " (capitalize <$> words)).

(** The name of an identifier of ASCII characters, read off the identifier
    character by character: an underscore becomes a space, and a letter that
    starts the identifier or follows an underscore becomes its capital. *)
Fixpoint title_case (start : bool) (s : string) : string :=
  match s with
  | EmptyString => EmptyString
  | String c r =>
      if decide (c = "_"%char) then String " " (title_case true r)
      else String (if start then ASCII.upper c else c) (title_case false r)
  end.

(** ** [_getLabel] (card.ts:199-210) *)

Definition _getLabel (this : Card) : result string :=
  match _hass this with
  | None => Ok EmptyString
  | Some hass =>
      config ← deref (_config this) "area";
      if negb (ToBoolean config.["area"]) then Ok EmptyString
      else
        let sensorTemp :=
          optional_prop (getState hass config.["temperature_sensor"]) "state" in
        let humidity :=
          optional_prop (getState hass config.["humidity_sensor"]) "state" in
        unit ← toUpperCase_method
                 (if ToBoolean config.["unit"] then config.["unit"] else JStr "C");
        Ok (ToString sensorTemp +:+ "°" +:+ unit +:+ " - " +:+ ToString humidity +:+ "%")
  end.

(** ** [_getAreaStatistics] (card.ts:216-238) *)

(** Each count is a pair [[number, name]], an array of length 2, which the
    filter on [count.length > 0] keeps. *)
Definition _getAreaStatistics (this : Card) : result string :=
  match _hass this with
  | None => Ok EmptyString
  | Some hass =>
      config ← deref (_config this) "area";
      if negb (ToBoolean config.["area"]) then Ok EmptyString
      else
        device_ids ← Object_keys hass.["devices"];
        devices ← filterM (λ k,
                     device ← getDevice hass k;
                     area_id ← get_prop device "area_id";
                     Ok (strict_equal area_id config.["area"])) device_ids;
        entity_ids ← Object_keys hass.["entities"];
        entities ← filterM (λ k,
                      entity ← getEntity hass k;
                      area_id ← get_prop entity "area_id";
                      if strict_equal area_id config.["area"] then Ok true
                      else device_id ← get_prop entity "device_id";
                           Ok (includes devices device_id)) entity_ids;
        Ok (JS.join " "
              ((λ count, pretty count.1 +:+ " " +:+ count.2) <$>
               filter (λ count : nat * string, 0 < 2)
                 [(length devices, "devices"); (length entities, "entities")]))
  end.

(** ** [_renderProblemIndicator] (card.ts:244-258) *)

Definition _renderProblemIndicator (this : Card) : Indicator :=
  if bool_decide (length (_problemEntities this) = 0) then nothing
  else
    ha_icon ("mdi:numeric-" +:+ pretty (length (_problemEntities this)))
            "status-entities"
            ("background-color: " +:+
             (if _problemExists this then "rgba(var(--color-red), 0.8)"
              else "rgba(var(--color-green), 0.6)")).

(** ** [render] (card.ts:80-132) *)

Definition render (this : Card) : result TemplateResult :=
  match _states this with
  | None => Ok html_empty
  | Some states =>
      roomEntity ← deref (_roomEntity this) "state";
      let textStyle := getEntityIconStyles roomEntity.["state"] in
      let cardStyle := getCardStyles (_hass this) (_config this) roomEntity.["state"] in
      areaName ← match _config this with
                 | Some config =>
                     if ToBoolean config.["label"] then Ok config.["label"]
                     else JStr <$> _formatAreaName this
                 | None => JStr <$> _formatAreaName this
                 end;
      label ← _getLabel this;
      stats ← _getAreaStatistics this;
      Ok (html_card
            {| t_cardStyle := cardStyle;
               t_textStyle := textStyle;
               t_nameAction := (handleClickAction roomEntity, actionHandler roomEntity);
               t_areaName := areaName;
               t_labelAction := (handleClickAction roomEntity, actionHandler roomEntity);
               t_label := label;
               t_stats := stats;
               t_roomIcon := createStateIcon (_hass this) roomEntity ["room"];
               t_icons := imap (λ i s, createStateIcon (_hass this) s
                                         ["entity"; "entity-" +:+ pretty (i + 1)])
                               states;
               t_problem := _renderProblemIndicator this |})
  end.

(** ** The life of a card *)

(** The host configures a card and pushes snapshots into it, one call at a
    time; a call that throws leaves the card as it was when it threw. *)
Inductive call : Type :=
  | SetConfig (config : Config)
  | SetHass (hass : HomeAssistant).

Definition perform (this : Card) (c : call) : Card :=
  match c with
  | SetConfig config => out_card (setConfig config this)
  | SetHass hass => out_card (set_hass hass this)
  end.

(** The card after a sequence of calls on a new card. *)
Definition after (calls : list call) : Card := foldl perform new_card calls.

End card.

(** ** An entity query layer to run the card on *)

(** Modelled from the spec: [getState] of [./helpers], which is not among the
    sources.  Section 4.1: the live state of an id, or [undefined]; absence
    is not an error.  The snapshot keeps live states under [states]. *)
Definition spec_getState (hass : HomeAssistant) (id : jsval) : option (gmap string jsval) :=
  match hass.["states"], id with
  | JObj states, JStr s =>
      match states !! s with
      | Some (JObj st) => Some st
      | _ => None
      end
  | _, _ => None
  end.

(** Modelled from the spec: [getEntity] and [getDevice] of [./helpers].
    Section 4.1: a registry lookup that fails with NotFound. *)
Definition spec_registry (name : string) (hass : HomeAssistant) (id : string) : result jsval :=
  match hass.[name] with
  | JObj registry =>
      match registry !! id with
      | Some r => Ok r
      | None => Throw (Thrown (JStr "NotFound"))
      end
  | _ => Throw (Thrown (JStr "NotFound"))
  end.

(** Modelled from the spec: the EntityInformation of section 3, the
    identifier of an entity with its current state value. *)
Definition spec_entityInformation (hass : HomeAssistant) (id : jsval) : EntityInformation :=
  <["entity_id" := id]>
    (<["state" := optional_prop (spec_getState hass id) "state"]> ∅).

(** Modelled from the spec: [getIconEntities] of [./helpers].  Section 4.1:
    one EntityInformation per entity configured for icon display, in
    configuration order; the configured ids are taken from [entities]. *)
Definition spec_getIconEntities (hass : HomeAssistant) (config : option Config)
  : result (list EntityInformation) :=
  match config with
  | Some c =>
      match c.["entities"] with
      | JArr ids => Ok (spec_entityInformation hass <$> ids)
      | _ => Ok []
      end
  | None => Ok []
  end.

(** Modelled from the spec: [getRoomEntity] of [./helpers].  Section 4.1:
    the EntityInformation that stands for the area itself. *)
Definition spec_getRoomEntity (hass : HomeAssistant) (config : option Config)
  : result EntityInformation :=
  Ok (spec_entityInformation hass (from_option (λ c, c.["area"]) JUndef config)).

(** Modelled from the spec: [getProblemEntities] of [./helpers].  Section
    4.1: the entities bound to the area, directly or through their device,
    that are classified as problems; [problemExists] when the live state of
    one of them is the active value. *)
Definition spec_getProblemEntities (hass : HomeAssistant) (area : jsval)
  : result (list string * bool) :=
  match hass.["entities"] with
  | JObj entities =>
      let in_area (e : gmap string jsval) :=
        strict_equal e.["area_id"] area ||
        match e.["device_id"] with
        | JStr d =>
            match spec_registry "devices" hass d with
            | Ok (JObj device) => strict_equal device.["area_id"] area
            | _ => false
            end
        | _ => false
        end in
      let bound :=
        List.filter (λ kv : string * jsval,
                       match kv.2 with
                       | JObj e => in_area e && ToBoolean e.["problem"]
                       | _ => false
                       end) (map_to_list entities) in
      Ok (bound.*1,
          existsb (λ kv : string * jsval,
                     strict_equal (optional_prop (spec_getState hass (JStr kv.1)) "state")
                                  (JStr "on")) bound)
  | _ => Ok ([], false)
  end.

(** Modelled from the spec: the modules [./helpers], [./styles] and
    [./action-handler].  The query layer is the one above; the
    presentational functions, of which the specification fixes nothing,
    keep their arguments. *)
#[local] Instance spec_helpers : Helpers := {|
  Style := jsval;
  Handler := EntityInformation;
  Directive := EntityInformation;
  Icon := EntityInformation * list string;
  getEntityIconStyles := λ state, state;
  getCardStyles := λ _ _ state, state;
  handleClickAction := λ entity, entity;
  actionHandler := λ entity, entity;
  createStateIcon := λ _ entity classes, (entity, classes);
  getDevice := spec_registry "devices";
  getEntity := spec_registry "entities";
  getIconEntities := spec_getIconEntities;
  getProblemEntities := spec_getProblemEntities;
  getRoomEntity := spec_getRoomEntity;
  getState := spec_getState;
|}.

(** An engine to run the card on the fixtures below, whose area identifiers
    and units are made of ASCII characters: the methods of [ASCII], which on
    such strings are those of every engine. *)
#[local] Instance ascii_strings : StringPrototype := {|
  charAt := ASCII.charAt;
  slice := ASCII.slice;
  toUpperCase := ASCII.toUpperCase;
  charAt_empty := eq_refl;
  charAt_ascii := λ _ _ _, eq_refl;
  slice_empty := eq_refl;
  slice_ascii := λ _ _ _, eq_refl;
  toUpperCase_ascii := λ _ _, eq_refl;
|}.

(** A kitchen with a lamp, a climate sensor and a leak detector. *)
Definition kitchen_config : Config :=
  {[ "area" := JStr "kitchen";
     "entities" := JArr [JStr "light.kitchen"; JStr "switch.kettle"] ]}.

Definition kitchen_hass (leak : string) : HomeAssistant :=
  {[ "states" :=
       JObj {[ "sensor.kitchen_climate_air_temperature" := JObj {[ "state" := JStr "21.5" ]};
               "sensor.kitchen_climate_humidity" := JObj {[ "state" := JStr "40" ]};
               "light.kitchen" := JObj {[ "state" := JStr "on" ]};
               "switch.kettle" := JObj {[ "state" := JStr "off" ]};
               "binary_sensor.kitchen_leak" := JObj {[ "state" := JStr leak ]} ]};
     "entities" :=
       JObj {[ "light.kitchen" := JObj {[ "area_id" := JStr "kitchen" ]};
               "switch.kettle" := JObj {[ "device_id" := JStr "kettle" ]};
               "binary_sensor.kitchen_leak" :=
                 JObj {[ "area_id" := JStr "kitchen"; "problem" := JBool true ]} ]};
     "devices" := JObj {[ "kettle" := JObj {[ "area_id" := JStr "kitchen" ]} ]} ]}.

(** A snapshot in which nothing of the kitchen has a live state. *)
Definition silent_hass : HomeAssistant :=
  {[ "states" := JObj ∅; "entities" := JObj ∅; "devices" := JObj ∅ ]}.

(** The card after [setConfig(config)] and one push of [hass]. *)
Definition configured (config : Config) (hass : HomeAssistant) : Card :=
  out_card (set_hass hass (out_card (setConfig config new_card))).

(** The value of a reactive property of a card. *)
Definition field_val (f : field) (this : Card) : jsval :=
  match f with
  | config_field => config_val (_config this)
  | states_field => states_val (_states this)
  | roomEntity_field => entity_val (_roomEntity this)
  | problemEntities_field => ids_val (_problemEntities this)
  | problemExists_field => JBool (_problemExists this)
  end.

(** The snapshot [hass] with another reading of the kitchen thermometer. *)
Definition reheated (hass : HomeAssistant) : HomeAssistant :=
  <["states" :=
      match hass.["states"] with
      | JObj states =>
          JObj (<["sensor.kitchen_climate_air_temperature" :=
                    JObj {[ "state" := JStr "23.0" ]}]> states)
      | v => v
      end]> hass.

(** Runs the statements of a method on a symbolic card. *)
Ltac run_method :=
  unfold set_hass, setConfig, stopped, when, mbind, action_bind, set__hass, get, lift;
  simpl.

(** * Properties *)

(** ** Deep equality is equality of values *)

Lemma jsize_lookup (p : gmap string jsval) (k : string) (v : jsval) :
  p !! k = Some v → jsize v < jsize (JObj p).
Proof.
  cbn [jsize]. revert k v.
  apply (map_fold_weak_ind
           (λ n (m : gmap string jsval), ∀ k v, m !! k = Some v → jsize v < S n)).
  - intros k v. by rewrite lookup_empty.
  - intros i x m r Hi IH k v. rewrite lookup_insert.
    case_decide as Hk.
    + intros [= ->]. lia.
    + intros Hv. specialize (IH _ _ Hv). lia.
Qed.

Lemma jsize_elem (xs : list jsval) (x : jsval) :
  x ∈ xs → jsize x < jsize (JArr xs).
Proof.
  cbn [jsize]. induction 1 as [x xs|x y xs _ IH]; cbn [foldr]; lia.
Qed.

Lemma fold_and_true (g : string → jsval → bool) (p : gmap string jsval) :
  map_fold (λ k v ok, ok && g k v) true p = true ↔
  ∀ k v, p !! k = Some v → g k v = true.
Proof.
  apply (map_fold_weak_ind
           (λ ok (m : gmap string jsval),
              ok = true ↔ ∀ k v, m !! k = Some v → g k v = true)).
  - split; [|done]. intros _ k v. by rewrite lookup_empty.
  - intros i x m r Hi IH. rewrite andb_true_iff, IH. split.
    + intros [Hm Hx] k v. rewrite lookup_insert. case_decide as Hk.
      * by intros [= <-]; subst.
      * apply Hm.
    + intros Hall. split.
      * intros k v Hv. apply Hall. rewrite lookup_insert_ne; [done|].
        intros ->. congruence.
      * apply Hall. by rewrite lookup_insert_eq.
Qed.

Lemma equal_eq (a b : jsval) : equal a b = true ↔ a = b.
Proof.
  remember (jsize a) as n eqn:Hn. revert a b Hn.
  induction (lt_wf n) as [n _ IH]. intros a b ->.
  destruct a as [| |x|x|xs|p], b as [| |y|y|ys|q]; cbn [equal strict_equal];
    try (split; [discriminate|congruence]); try done.
  - rewrite bool_decide_eq_true. split; congruence.
  - rewrite bool_decide_eq_true. split; congruence.
  - assert (∀ x, x ∈ xs → ∀ y, equal x y = true ↔ x = y) as Helems.
    { intros x Hx y. by eapply IH; [apply (jsize_elem _ _ Hx)|]. }
    clear IH. revert ys. induction xs as [|x xs IHxs]; intros [|y ys];
      try (split; [discriminate|congruence]); [done|].
    rewrite andb_true_iff, (Helems x) by left.
    rewrite IHxs by (intros ???; apply Helems; by right).
    split; [by intros [-> [= ->]]|by intros [= -> ->]].
  - rewrite andb_true_iff, bool_decide_eq_true, fold_and_true. split.
    + intros [Hsize Hall]. f_equal. apply map_subseteq_size_eq; [|lia].
      apply map_subseteq_spec. intros k v Hv. specialize (Hall k v Hv).
      destruct (q !! k) as [w|]; [|done].
      f_equal. symmetry. by eapply IH; [apply (jsize_lookup _ _ _ Hv)|..].
    + intros [= <-]. split; [done|]. intros k v Hv. rewrite Hv.
      by eapply IH; [apply (jsize_lookup _ _ _ Hv)|..].
Qed.

Lemma equal_refl (a : jsval) : equal a a = true.
Proof. by apply equal_eq. Qed.

(** In the proofs below simplification leaves [equal] folded. *)
Arguments equal : simpl never.

Lemma config_val_inj (a b : option Config) : config_val a = config_val b → a = b.
Proof. destruct a, b; simpl; congruence. Qed.

Lemma entity_val_inj (a b : option EntityInformation) :
  entity_val a = entity_val b → a = b.
Proof. destruct a, b; simpl; congruence. Qed.

Lemma states_val_inj (a b : option (list EntityInformation)) :
  states_val a = states_val b → a = b.
Proof.
  destruct a as [a|], b as [b|]; simpl; try congruence.
  intros [= Hab]. f_equal. revert b Hab.
  induction a as [|x a IH]; intros [|y b]; simpl; try congruence.
  intros [= -> Hab]. f_equal. by apply IH.
Qed.

Lemma ids_val_inj (a b : list string) : ids_val a = ids_val b → a = b.
Proof.
  unfold ids_val. intros [= Hab]. revert b Hab.
  induction a as [|x a IH]; intros [|y b]; simpl; try congruence.
  intros [= -> Hab]. f_equal. by apply IH.
Qed.

(** A gated assignment leaves the field with the derived value, as a
    value: either it was assigned, or it already held that value. *)
Lemma gate_value {A} (val : A → jsval) (fresh stored : A) :
  (∀ a b, val a = val b → a = b) →
  (if equal (val fresh) (val stored) then stored else fresh) = fresh.
Proof.
  intros Hinj. destruct (equal _ _) eqn:E; [|done].
  apply equal_eq in E. by apply Hinj in E.
Qed.

Lemma hasChanged_bool (value old : bool) :
  hasChanged (JBool value) (JBool old) = negb (equal (JBool value) (JBool old)).
Proof. by destruct value, old. Qed.


(** ** The [hass] setter, step by step *)

Section setter.
Context `{Helpers}.

Lemma set_hass_unconfigured (hass : HomeAssistant) (this : Card) :
  _config this = None →
  ∃ e, set_hass hass this = Outcome (stopped hass this) [] (Throw e).
Proof.
  intros Hc. run_method.
  rewrite Hc.
  destruct (getIconEntities _ _); simpl; [|by eauto].
  destruct (getRoomEntity _ _); simpl; by eauto.
Qed.

Lemma set_hass_throws (hass : HomeAssistant) (this : Card) (e : exn) :
  out_res (set_hass hass this) = Throw e →
  set_hass hass this = Outcome (stopped hass this) [] (Throw e).
Proof.
  run_method.
  destruct (getIconEntities _ _); simpl; [|by intros [= ->]].
  destruct (getRoomEntity _ _); simpl; [|by intros [= ->]].
  destruct (_config this); simpl; [|by intros [= <-]].
  destruct (getProblemEntities _ _) as [[pe px]|]; simpl; [|by intros [= ->]].
  do 3 (destruct (equal _ _); simpl); done.
Qed.

Lemma set_hass_returns (hass : HomeAssistant) (this : Card) :
  out_res (set_hass hass this) = Ok () →
  ∃ config states roomEntity problemEntities problemExists,
    _config this = Some config ∧
    getIconEntities hass (Some config) = Ok states ∧
    getRoomEntity hass (Some config) = Ok roomEntity ∧
    getProblemEntities hass config.["area"] = Ok (problemEntities, problemExists).
Proof.
  run_method.
  destruct (_config this) as [config|]; simpl.
  - destruct (getIconEntities _ _) as [states|] eqn:E1; simpl; [|done].
    destruct (getRoomEntity _ _) as [roomEntity|] eqn:E2; simpl; [|done].
    destruct (getProblemEntities _ _) as [[pe px]|] eqn:E3; simpl; [|done].
    intros _. by exists config, states, roomEntity, pe, px.
  - destruct (getIconEntities _ _); simpl; [|done].
    destruct (getRoomEntity _ _); simpl; done.
Qed.

(** Whether a push completes depends on the configuration held and on the
    snapshot only. *)
Lemma set_hass_res (hass : HomeAssistant) (this this' : Card) :
  _config this = _config this' →
  out_res (set_hass hass this) = out_res (set_hass hass this').
Proof.
  intros Hc. run_method. rewrite <-Hc.
  destruct (getIconEntities _ _); simpl; [|done].
  destruct (getRoomEntity _ _); simpl; [|done].
  destruct (_config this); simpl; [|done].
  destruct (getProblemEntities _ _) as [[pe px]|]; simpl; [|done].
  by do 6 (destruct (equal _ _); simpl).
Qed.

Lemma set_hass_ok (hass : HomeAssistant) (this : Card) config states roomEntity
    problemEntities problemExists :
  _config this = Some config →
  getIconEntities hass (Some config) = Ok states →
  getRoomEntity hass (Some config) = Ok roomEntity →
  getProblemEntities hass config.["area"] = Ok (problemEntities, problemExists) →
  set_hass hass this =
    Outcome
      {| _config := Some config;
         _states :=
           if equal (states_val (Some states)) (states_val (_states this))
           then _states this else Some states;
         _roomEntity :=
           if equal (entity_val (Some roomEntity)) (entity_val (_roomEntity this))
           then _roomEntity this else Some roomEntity;
         _problemEntities :=
           if equal (ids_val problemEntities) (ids_val (_problemEntities this))
           then _problemEntities this else problemEntities;
         _problemExists := problemExists;
         _hass := Some hass |}
      (Assigned problemExists_field
         (negb (equal (JBool problemExists) (JBool (_problemExists this)))) ::
       (if equal (entity_val (Some roomEntity)) (entity_val (_roomEntity this))
        then [] else [Assigned roomEntity_field true]) ++
       (if equal (states_val (Some states)) (states_val (_states this))
        then [] else [Assigned states_field true]) ++
       (if equal (ids_val problemEntities) (ids_val (_problemEntities this))
        then [] else [Assigned problemEntities_field true]))
      (Ok ()).
Proof.
  intros Hc Hs Hr Hp.
  run_method.
  rewrite Hc, Hs; simpl. rewrite Hr; simpl. rewrite Hp; simpl.
  rewrite hasChanged_bool.
  destruct (equal (JObj roomEntity) _); simpl;
    destruct (equal (JArr _) _); simpl;
    destruct (equal (ids_val _) _); simpl; by rewrite ?Hc.
Qed.

Lemma set_hass_stored (hass : HomeAssistant) (this : Card) :
  _hass (out_card (set_hass hass this)) = Some hass.
Proof.
  destruct (out_res (set_hass hass this)) as [[]|e] eqn:E.
  - destruct (set_hass_returns _ _ E)
      as (config & states & roomEntity & pe & px & Hc & Hs & Hr & Hp).
    by rewrite (set_hass_ok _ _ _ _ _ _ _ Hc Hs Hr Hp).
  - by rewrite (set_hass_throws _ _ _ E).
Qed.

End setter.

(** ** [setConfig] *)

Lemma cardConfig_lookup (config : Config) (k : string) :
  cardConfig config !! k =
    match config !! k with
    | Some v => Some v
    | None =>
        if decide (k = "temperature_sensor") then
          Some (JStr ("sensor." +:+ ToString config.["area"] +:+ "_climate_air_temperature"))
        else if decide (k = "humidity_sensor") then
          Some (JStr ("sensor." +:+ ToString config.["area"] +:+ "_climate_humidity"))
        else None
    end.
Proof.
  unfold cardConfig. rewrite lookup_union.
  destruct (config !! k) as [v|] eqn:E; simpl.
  - by destruct (<[_:=_]> _ !! k).
  - rewrite (left_id None _).
    repeat case_decide; simplify_map_eq; done.
Qed.

Lemma cardConfig_area (config : Config) : (cardConfig config).["area"] = config.["area"].
Proof. unfold prop. rewrite cardConfig_lookup. by destruct (config !! "area"). Qed.

(** A merged configuration merges to itself. *)
Lemma cardConfig_merged (config : Config) :
  cardConfig (cardConfig config) = cardConfig config.
Proof.
  apply map_eq. intros k. rewrite (cardConfig_lookup (cardConfig config)).
  rewrite cardConfig_area, cardConfig_lookup.
  destruct (config !! k); [done|]. by repeat case_decide.
Qed.

Lemma setConfig_ok (config : Config) (this : Card) :
  setConfig config this =
    Outcome
      {| _config :=
           if equal (config_val (Some (cardConfig config))) (config_val (_config this))
           then _config this else Some (cardConfig config);
         _states := _states this;
         _roomEntity := _roomEntity this;
         _problemEntities := _problemEntities this;
         _problemExists := _problemExists this;
         _hass := _hass this |}
      (if equal (config_val (Some (cardConfig config))) (config_val (_config this))
       then [] else [Assigned config_field true])
      (Ok ()).
Proof.
  run_method. unfold set__config.
  destruct (equal _ _); simpl; [by destruct this|done].
Qed.

Lemma setConfig_held (config : Config) (this : Card) :
  _config (out_card (setConfig config this)) = Some (cardConfig config).
Proof.
  rewrite setConfig_ok. cbn [out_card _config].
  apply (gate_value config_val), config_val_inj.
Qed.

(** C5.  After [setConfig(config)] the card holds a merged configuration in
    which every property of [config] has the value [config] gives it, and
    each of the two sensor ids that [config] does not give is the id
    derived from [area]; nothing else is added.  For the area "kitchen"
    without sensor ids these are the two kitchen sensors. *)
Theorem setConfig_defaults (config : Config) (this : Card) :
  ∃ merged : Config,
    _config (out_card (setConfig config this)) = Some merged ∧
    (∀ k v, config !! k = Some v → merged !! k = Some v) ∧
    (config !! "temperature_sensor" = None →
     merged !! "temperature_sensor" =
       Some (JStr ("sensor." +:+ ToString config.["area"] +:+ "_climate_air_temperature"))) ∧
    (config !! "humidity_sensor" = None →
     merged !! "humidity_sensor" =
       Some (JStr ("sensor." +:+ ToString config.["area"] +:+ "_climate_humidity"))) ∧
    (∀ k, k ≠ "temperature_sensor" → k ≠ "humidity_sensor" →
          merged !! k = config !! k) ∧
    (config !! "area" = Some (JStr "kitchen") →
     config !! "temperature_sensor" = None →
     config !! "humidity_sensor" = None →
     merged !! "temperature_sensor" =
       Some (JStr "sensor.kitchen_climate_air_temperature") ∧
     merged !! "humidity_sensor" = Some (JStr "sensor.kitchen_climate_humidity")).
Proof.
  exists (cardConfig config). split; [apply setConfig_held|].
  split_and!.
  - intros k v Hk. by rewrite cardConfig_lookup, Hk.
  - intros Hk. by rewrite cardConfig_lookup, Hk.
  - intros Hk. by rewrite cardConfig_lookup, Hk.
  - intros k H1 H2. rewrite cardConfig_lookup.
    destruct (config !! k); [done|]. by repeat case_decide.
  - intros Ha Ht Hh. rewrite !cardConfig_lookup, Ht, Hh; simpl.
    unfold prop. by rewrite Ha.
Qed.

(** The card after a sequence of configurations. *)
Lemma foldl_setConfig_snoc (this : Card) (before : list Config) (config : Config) :
  foldl (λ c cfg, out_card (setConfig cfg c)) this (before ++ [config])%list =
  out_card (setConfig config (foldl (λ c cfg, out_card (setConfig cfg c)) this before)).
Proof. by rewrite foldl_app. Qed.

(** C6.  [setConfig] passes the merged configuration through the change
    gate and touches nothing else; pushing the configuration that was just
    pushed changes nothing and requests no render, after any sequence of
    configurations. *)
Theorem setConfig_gate (config : Config) (this : Card) :
  let o := setConfig config this in
  out_res o = Ok () ∧
  gated config_field config_val (Some (cardConfig config)) (_config this)
        (_config (out_card o)) (out_log o) ∧
  (∀ f, f ≠ config_field → assigned f (out_log o) = false) ∧
  (_states (out_card o), _roomEntity (out_card o), _problemEntities (out_card o),
   _problemExists (out_card o), _hass (out_card o)) =
  (_states this, _roomEntity this, _problemEntities this, _problemExists this,
   _hass this) ∧
  (let again := setConfig config (out_card o) in
   out_card again = out_card o ∧ out_log again = []) ∧
  (∀ before : list Config,
     let run := foldl (λ c cfg, out_card (setConfig cfg c)) this in
     run (before ++ [config; config])%list = run (before ++ [config])%list).
Proof.
  intros o. subst o.
  assert (∀ c, let o := setConfig config c in
               let again := setConfig config (out_card o) in
               out_card again = out_card o ∧ out_log again = []) as Hagain.
  { intros c. simpl. rewrite (setConfig_ok config (out_card _)).
    rewrite setConfig_held, equal_refl; simpl.
    rewrite <-(setConfig_held config c). split; [|done].
    by destruct (out_card (setConfig config c)). }
  split_and!.
  - by rewrite setConfig_ok.
  - rewrite setConfig_ok. unfold gated; simpl. by destruct (equal _ _).
  - intros f Hf. rewrite setConfig_ok; simpl.
    destruct (equal _ _); [done|]. by destruct f.
  - by rewrite setConfig_ok.
  - apply Hagain.
  - intros before run. subst run.
    replace (before ++ [config; config])%list with ((before ++ [config]) ++ [config])%list
      by by rewrite <-app_assoc.
    rewrite (foldl_setConfig_snoc _ (before ++ [config])%list), foldl_setConfig_snoc.
    apply Hagain.
Qed.

(** ** The change gate of a state push *)

Section gate.
Context `{Helpers}.

(** C1.  Every push passes the held fields through the change gate.  The
    merged configuration is not derived anew: the setter works with the held
    one, which it neither assigns nor changes, and which is deeply equal to
    what merging it again gives when it came from [setConfig].  When the
    snapshot and the held configuration give the room entity, the icon
    entities and the problem entities with their flag, the push returns, and
    each of the three properties that hold an object or an array is assigned,
    by the derived value, exactly when that value is not deeply equal to the
    stored one, a render being requested exactly then.  The flag, a boolean,
    is handed to its accessor on every push (card.ts:170) and the accessor
    compares: the card holds the derived value when that is not equal to the
    stored one and the stored value when it is, and a render is requested
    exactly when it is not.  When one of these values cannot be derived the
    push throws what the lookup threw: nothing is assigned or changed and no
    render is requested. *)
Theorem set_hass_gates (hass : HomeAssistant) (this : Card) :
  let o := set_hass hass this in
  gated config_field config_val (_config this) (_config this)
        (_config (out_card o)) (out_log o) ∧
  (∀ config, _config this = Some (cardConfig config) →
     gated config_field config_val (Some (cardConfig (cardConfig config)))
           (_config this) (_config (out_card o)) (out_log o)) ∧
  match derived hass this with
  | Ok (states, roomEntity, (problemEntities, problemExists)) =>
      out_res o = Ok () ∧
      gated roomEntity_field entity_val (Some roomEntity) (_roomEntity this)
            (_roomEntity (out_card o)) (out_log o) ∧
      gated states_field states_val (Some states) (_states this)
            (_states (out_card o)) (out_log o) ∧
      gated problemEntities_field ids_val problemEntities (_problemEntities this)
            (_problemEntities (out_card o)) (out_log o) ∧
      value_gated problemExists_field JBool problemExists (_problemExists this)
            (_problemExists (out_card o)) (out_log o)
  | Throw e =>
      out_res o = Throw e ∧
      ∀ f, field_val f (out_card o) = field_val f this ∧
           assigned f (out_log o) = false ∧
           render_requested f (out_log o) = false
  end.
Proof.
  intros o. subst o.
  assert (gated config_field config_val (_config this) (_config this)
                (_config (out_card (set_hass hass this)))
                (out_log (set_hass hass this))) as Hconfig.
  { unfold gated. rewrite equal_refl. simpl.
    destruct (out_res (set_hass hass this)) as [[]|e] eqn:E.
    - destruct (set_hass_returns _ _ E)
        as (config & states & roomEntity & pe & px & Hc & Hs & Hr & Hp).
      rewrite (set_hass_ok _ _ _ _ _ _ _ Hc Hs Hr Hp); simpl.
      destruct (equal (JObj roomEntity) _);
        destruct (equal (JArr _) _);
        destruct (equal (ids_val _) _); by rewrite ?Hc.
    - by rewrite (set_hass_throws _ _ _ E). }
  split; [done|]. split.
  { intros config Hc. by rewrite cardConfig_merged, <-Hc. }
  unfold derived.
  destruct (_config this) as [config|] eqn:Hc.
  - destruct (getIconEntities hass (Some config)) as [states|e] eqn:Hs; simpl.
    + destruct (getRoomEntity hass (Some config)) as [roomEntity|e] eqn:Hr; simpl.
      * destruct (getProblemEntities hass config.["area"]) as [[pe px]|e] eqn:Hp; simpl.
        -- rewrite (set_hass_ok _ _ _ _ _ _ _ Hc Hs Hr Hp).
           unfold gated, value_gated; simpl.
           destruct (equal (JObj roomEntity) _);
             destruct (equal (JArr _) _);
             destruct (equal (ids_val _) _);
             destruct px, (_problemExists this); done.
        -- assert (out_res (set_hass hass this) = Throw e) as E.
           { run_method. rewrite Hc, Hs; simpl. rewrite Hr; simpl. by rewrite Hp. }
           rewrite (set_hass_throws _ _ _ E). split; [done|]. by intros [].
      * assert (out_res (set_hass hass this) = Throw e) as E.
        { run_method. rewrite Hc, Hs; simpl. by rewrite Hr. }
        rewrite (set_hass_throws _ _ _ E). split; [done|]. by intros [].
    + assert (out_res (set_hass hass this) = Throw e) as E.
      { run_method. by rewrite Hc, Hs. }
      rewrite (set_hass_throws _ _ _ E). split; [done|]. by intros [].
  - destruct (getIconEntities hass None) as [states|e] eqn:Hs; simpl.
    + destruct (getRoomEntity hass None) as [roomEntity|e] eqn:Hr; simpl.
      * assert (out_res (set_hass hass this) =
                  Throw (TypeError "Cannot read properties of undefined (reading 'area')"))
          as E.
        { run_method. rewrite Hc, Hs; simpl. by rewrite Hr. }
        rewrite (set_hass_throws _ _ _ E). split; [done|]. by intros [].
      * assert (out_res (set_hass hass this) = Throw e) as E.
        { run_method. rewrite Hc, Hs; simpl. by rewrite Hr. }
        rewrite (set_hass_throws _ _ _ E). split; [done|]. by intros [].
    + assert (out_res (set_hass hass this) = Throw e) as E.
      { run_method. by rewrite Hc, Hs. }
      rewrite (set_hass_throws _ _ _ E). split; [done|]. by intros [].
Qed.

(** C3.  A second push of the same snapshot leaves the card as the first
    push left it and requests no render, whether the pushes complete or
    throw. *)
Theorem set_hass_idempotent (hass : HomeAssistant) (this : Card) :
  let first := set_hass hass this in
  let second := set_hass hass (out_card first) in
  out_card second = out_card first ∧
  out_res second = out_res first ∧
  ∀ f, render_requested f (out_log second) = false.
Proof.
  intros first second. subst first second.
  destruct (out_res (set_hass hass this)) as [[]|e] eqn:E.
  - destruct (set_hass_returns _ _ E)
      as (config & states & roomEntity & pe & px & Hc & Hs & Hr & Hp).
    rewrite (set_hass_ok _ this _ _ _ _ _ Hc Hs Hr Hp).
    cbn [out_card out_log out_res].
    erewrite set_hass_ok; [|done..].
    cbn [out_card out_log out_res _states _roomEntity _problemEntities _problemExists].
    rewrite !gate_value by auto using states_val_inj, entity_val_inj, ids_val_inj.
    rewrite !equal_refl. split_and!; [done..|].
    by intros [].
  - rewrite (set_hass_throws _ _ _ E); simpl.
    assert (out_res (set_hass hass (stopped hass this)) = Throw e) as E'
      by by rewrite <-E; apply set_hass_res.
    rewrite (set_hass_throws _ _ _ E'); simpl. split_and!; [done..|].
    by intros [].
Qed.

End gate.

(** ** Strings *)

Example split_living_room : JS.split "_" "living_room" = ["living"; "room"].
Proof. reflexivity. Qed.

Example split_keeps_empty_pieces :
  JS.split "_" "_a__b" = [EmptyString; "a"; EmptyString; "b"].
Proof. reflexivity. Qed.

Example title_case_living_room : title_case true "living_room" = "Living Room".
Proof. reflexivity. Qed.

Example ToString_array :
  ToString (JArr [JStr "a"; JNull; JBool true; JArr [JUndef; JStr "b"]]) = "a,,true,,b".
Proof. reflexivity. Qed.

Lemma split_nonempty (sep : ascii) (s : string) : JS.split sep s ≠ [].
Proof.
  destruct s as [|c r]; simpl; [done|].
  case_decide; [done|]. by destruct (JS.split sep r).
Qed.

Lemma join_cons_char (sep : string) (c : ascii) (w : string) (ws : list string) :
  JS.join sep (String c w :: ws) = String c (JS.join sep (w :: ws)).
Proof. by destruct ws. Qed.

Lemma is_ascii_upper (c : ascii) :
  ASCII.is_ascii c = true → ASCII.is_ascii (ASCII.upper c) = true.
Proof. by destruct c as [[] [] [] [] [] [] [] []]. Qed.

Section strings.
Context `{StringPrototype}.

Lemma capitalize_empty : capitalize EmptyString = EmptyString.
Proof.
  unfold capitalize. by rewrite charAt_empty, slice_empty, toUpperCase_ascii.
Qed.

(** A word that starts with an ASCII character: that character becomes its
    capital and the rest of the word stays. *)
Lemma capitalize_ascii (c : ascii) (w : string) :
  ASCII.is_ascii c = true → capitalize (String c w) = String (ASCII.upper c) w.
Proof.
  intros Hc. unfold capitalize. rewrite charAt_ascii, slice_ascii by done.
  rewrite toUpperCase_ascii by (cbn [ASCII.only]; by rewrite Hc). done.
Qed.

Example capitalize_word : capitalize "room" = "Room".
Proof. by rewrite capitalize_ascii. Qed.

(** The words of [_formatAreaName] for an identifier of ASCII characters,
    read off the identifier in one pass. *)
Lemma title_case_split (s : string) :
  ASCII.only s = true →
  JS.join " " (capitalize <$> JS.split "_" s) = title_case true s ∧
  match JS.split "_" s with
  | [] => True
  | w :: ws => JS.join " " (w :: (capitalize <$> ws)) = title_case false s
  end.
Proof.
  induction s as [|c r IH]; intros Hs.
  { cbn [JS.split fmap list_fmap]. by rewrite capitalize_empty. }
  cbn [ASCII.only] in Hs. apply andb_prop in Hs as [Hc Hr].
  destruct (IH Hr) as [IH1 IH2].
  cbn [JS.split title_case]. case_decide as Hu.
  - destruct (JS.split "_" r) as [|w ws] eqn:E; [by apply split_nonempty in E|].
    rewrite fmap_cons, capitalize_empty. by rewrite <-IH1.
  - destruct (JS.split "_" r) as [|w ws] eqn:E; [by apply split_nonempty in E|].
    split.
    + rewrite fmap_cons, capitalize_ascii by done.
      by rewrite join_cons_char, IH2.
    + by rewrite join_cons_char, IH2.
Qed.

End strings.

(** ** The getters and [render] *)

Section render.
Context `{Helpers} `{StringPrototype}.

(** What a card that rendered looks like, and what each hole holds. *)
Lemma render_card (this : Card) (t : CardTemplate) :
  render this = Ok (html_card t) →
  ∃ states roomEntity config name,
    _states this = Some states ∧
    _roomEntity this = Some roomEntity ∧
    _config this = Some config ∧
    t_areaName t =
      (if ToBoolean config.["label"] then config.["label"] else JStr name) ∧
    (ToBoolean config.["label"] = false → _formatAreaName this = Ok name) ∧
    _getLabel this = Ok (t_label t) ∧
    t_roomIcon t = createStateIcon (_hass this) roomEntity ["room"] ∧
    t_icons t = imap (λ i s, createStateIcon (_hass this) s
                               ["entity"; "entity-" +:+ pretty (i + 1)]) states ∧
    t_problem t = _renderProblemIndicator this.
Proof.
  unfold render.
  destruct (_states this) as [states|]; [|done].
  destruct (_roomEntity this) as [roomEntity|]; simpl; [|done].
  destruct (_config this) as [config|] eqn:Hc; simpl.
  - destruct (ToBoolean config.["label"]) eqn:Hl; simpl.
    + destruct (_getLabel this) as [label|]; simpl; [|done].
      destruct (_getAreaStatistics this) as [stats|]; simpl; [|done].
      intros [= <-]. exists states, roomEntity, config, EmptyString.
      by rewrite Hl.
    + destruct (_formatAreaName this) as [name|]; simpl; [|done].
      destruct (_getLabel this) as [label|]; simpl; [|done].
      destruct (_getAreaStatistics this) as [stats|]; simpl; [|done].
      intros [= <-]. exists states, roomEntity, config, name.
      by rewrite Hl.
  - unfold _formatAreaName. rewrite Hc. done.
Qed.

Lemma rendered_card (r : result TemplateResult) :
  rendered r = true → ∃ t, r = Ok (html_card t).
Proof. destruct r as [[|t]|e]; [done| |done]. by exists t. Qed.

Lemma render_empty (this : Card) :
  _states this = None → render this = Ok html_empty.
Proof. unfold render. by intros ->. Qed.

(** C7.  The problem indicator is [nothing] exactly when the list of
    problem entities is empty.  Otherwise it is the [ha-icon] whose icon
    name ends in the number of problem entities, in decimal, on the red
    background of opacity 0.8 when [_problemExists] and on the green one of
    opacity 0.6 when not; a single problem entity gives [mdi:numeric-1].
    It is the indicator of every card that renders. *)
Theorem problem_indicator (this : Card) :
  (_problemEntities this = [] ↔ _renderProblemIndicator this = nothing) ∧
  (_problemEntities this ≠ [] →
   _renderProblemIndicator this =
     ha_icon ("mdi:numeric-" +:+ pretty (length (_problemEntities this)))
             "status-entities"
             (if _problemExists this
              then "background-color: rgba(var(--color-red), 0.8)"
              else "background-color: rgba(var(--color-green), 0.6)")) ∧
  (∀ id, _problemEntities this = [id] →
         ∃ style, _renderProblemIndicator this =
                    ha_icon "mdi:numeric-1" "status-entities" style) ∧
  (∀ t, render this = Ok (html_card t) → t_problem t = _renderProblemIndicator this).
Proof.
  split_and!.
  - unfold _renderProblemIndicator.
    destruct (_problemEntities this); simpl; by split.
  - unfold _renderProblemIndicator.
    destruct (_problemEntities this) as [|id ids]; [done|]. intros _.
    rewrite bool_decide_eq_false_2 by done.
    destruct (_problemExists this); reflexivity.
  - unfold _renderProblemIndicator. intros id ->. simpl. eauto.
  - intros t Ht.
    by destruct (render_card _ _ Ht) as (?&?&?&?&_&_&_&_&_&_&_&_&Hp).
Qed.

(** The label of a card that has a snapshot and an area. *)
Lemma _getLabel_configured (this : Card) (hass : HomeAssistant) (config : Config) :
  _hass this = Some hass →
  _config this = Some config →
  ToBoolean config.["area"] = true →
  config !! "unit" = None →
  _getLabel this =
    Ok (ToString (optional_prop (getState hass config.["temperature_sensor"]) "state")
        +:+ "°C - " +:+
        ToString (optional_prop (getState hass config.["humidity_sensor"]) "state")
        +:+ "%").
Proof.
  intros Hh Hc Ha Hu. unfold _getLabel. rewrite Hh, Hc; simpl. rewrite Ha; simpl.
  unfold prop at 3. rewrite Hu; simpl. by rewrite toUpperCase_ascii.
Qed.

(** C8.  With the unit left out of the configuration, a temperature state
    "21.5" and a humidity state "40" give the label "21.5°C - 40%". *)
Theorem label_formatting (this : Card) (hass : HomeAssistant) (config : Config)
    (temperature humidity : gmap string jsval) :
  _hass this = Some hass →
  _config this = Some config →
  ToBoolean config.["area"] = true →
  config !! "unit" = None →
  getState hass config.["temperature_sensor"] = Some temperature →
  temperature.["state"] = JStr "21.5" →
  getState hass config.["humidity_sensor"] = Some humidity →
  humidity.["state"] = JStr "40" →
  _getLabel this = Ok "21.5°C - 40%".
Proof.
  intros Hh Hc Ha Hu Ht Hts Hm Hms.
  rewrite (_getLabel_configured _ _ _ Hh Hc Ha Hu), Ht, Hm; simpl.
  by rewrite Hts, Hms.
Qed.

(** The label when neither sensor has a live state: the getter returns,
    and the text it returns spells out [undefined] twice. *)
Lemma _getLabel_without_state (this : Card) (hass : HomeAssistant) (config : Config) :
  _hass this = Some hass →
  _config this = Some config →
  ToBoolean config.["area"] = true →
  config !! "unit" = None →
  getState hass config.["temperature_sensor"] = None →
  getState hass config.["humidity_sensor"] = None →
  _getLabel this = Ok "undefined°C - undefined%".
Proof.
  intros Hh Hc Ha Hu Ht Hm.
  by rewrite (_getLabel_configured _ _ _ Hh Hc Ha Hu), Ht, Hm.
Qed.

(** C9.  A card that renders has one icon cell per held icon entity, in the
    order of the held list: the cell at index [i] is the state icon of the
    entity at index [i], with the classes [entity] and [entity-(i+1)].  So
    an entity that stands at index [j] of another held list is rendered at
    index [j] there, with the class [entity-(j+1)].  The held list is, as a
    value, the list [getIconEntities] returned at the last push that
    completed: when that helper lists the configured ids [ids] in their
    order, the card rendered after the push shows the id at index [i] of
    [ids] in the cell at index [i]. *)
Theorem icons_in_list_order (this : Card) (states : list EntityInformation)
    (t : CardTemplate) :
  _states this = Some states →
  render this = Ok (html_card t) →
  length (t_icons t) = length states ∧
  (∀ i s, states !! i = Some s →
          t_icons t !! i =
            Some (createStateIcon (_hass this) s
                    ["entity"; "entity-" +:+ pretty (i + 1)])) ∧
  (∀ this' states' t' i j s,
      _states this' = Some states' →
      render this' = Ok (html_card t') →
      states !! i = Some s → states' !! j = Some s →
      t_icons t !! i =
        Some (createStateIcon (_hass this) s ["entity"; "entity-" +:+ pretty (i + 1)]) ∧
      t_icons t' !! j =
        Some (createStateIcon (_hass this') s ["entity"; "entity-" +:+ pretty (j + 1)])) ∧
  (∀ hass before (info : jsval → EntityInformation) (ids : list jsval) t',
      getIconEntities hass (_config before) = Ok (info <$> ids) →
      is_Ok (out_res (set_hass hass before)) →
      render (out_card (set_hass hass before)) = Ok (html_card t') →
      length (t_icons t') = length ids ∧
      ∀ i id, ids !! i = Some id →
              t_icons t' !! i =
                Some (createStateIcon (Some hass) (info id)
                        ["entity"; "entity-" +:+ pretty (i + 1)])).
Proof.
  assert (∀ c l u, _states c = Some l → render c = Ok (html_card u) →
            length (t_icons u) = length l ∧
            ∀ i s, l !! i = Some s →
                   t_icons u !! i =
                     Some (createStateIcon (_hass c) s
                             ["entity"; "entity-" +:+ pretty (i + 1)])) as Hcells.
  { intros c l u Hl Hu.
    destruct (render_card _ _ Hu)
      as (l' & ? & ? & ? & Hl' & _ & _ & _ & _ & _ & _ & -> & _).
    rewrite Hl in Hl'. injection Hl' as <-. split; [by rewrite length_imap|].
    intros i s Hi. by rewrite list_lookup_imap, Hi. }
  intros Hs Ht. destruct (Hcells _ _ _ Hs Ht) as [Hlen Hat].
  split_and!; [done..| |].
  - intros this' states' t' i j s Hs' Ht' Hi Hj.
    destruct (Hcells _ _ _ Hs' Ht') as [_ Hat']. auto.
  - intros hass before info ids t' Hids [[] Hok] Ht'.
    destruct (set_hass_returns _ _ Hok)
      as (config & derived & roomEntity & pe & px & Hc & Hd & Hr & Hp).
    rewrite Hc, Hd in Hids. injection Hids as ->.
    assert (_states (out_card (set_hass hass before)) = Some (info <$> ids)) as Hheld.
    { rewrite (set_hass_ok _ _ _ _ _ _ _ Hc Hd Hr Hp). cbn [out_card _states].
      apply (gate_value states_val (Some (info <$> ids))), states_val_inj. }
    destruct (Hcells _ _ _ Hheld Ht') as [Hlen' Hat'].
    rewrite length_fmap in Hlen'. split; [done|].
    intros i id Hi. rewrite <-(set_hass_stored hass before).
    apply Hat'. by rewrite list_lookup_fmap, Hi.
Qed.

(** C10, as the code has it.  A card that renders shows the label of its
    configuration when that label is truthy, a non-empty string for
    instance.  When the label is absent or falsy, the empty string included,
    it shows the area identifier split at its underscores, each piece with
    its first character in upper case, joined by single spaces.  For an
    identifier of ASCII characters that is the identifier with a space for
    each underscore and a capital for each letter that starts it or follows
    an underscore, so that "living_room" is shown as "Living Room". *)
Theorem room_name (this : Card) (t : CardTemplate) :
  render this = Ok (html_card t) →
  ∃ config, _config this = Some config ∧
    (ToBoolean config.["label"] = true → t_areaName t = config.["label"]) ∧
    (ToBoolean config.["label"] = false →
     ∃ area, config.["area"] = JStr area ∧
       t_areaName t =
         JStr (JS.join " "
                 ((λ w, toUpperCase (charAt w 0) +:+ slice w 1) <$> JS.split "_" area)) ∧
       (ASCII.only area = true → t_areaName t = JStr (title_case true area)) ∧
       (area = "living_room" → t_areaName t = JStr "Living Room")).
Proof.
  intros Ht.
  destruct (render_card _ _ Ht) as (? & ? & config & name & _ & _ & Hc & Hn & Hf & _).
  exists config. split; [done|]. split.
  - intros Hl. by rewrite Hn, Hl.
  - intros Hl. rewrite Hn, Hl. specialize (Hf Hl).
    unfold _formatAreaName in Hf. rewrite Hc in Hf; simpl in Hf.
    destruct (config.["area"]) as [| | |area| |]; simpl in Hf; try done.
    injection Hf as <-. exists area. split; [done|].
    split; [done|]. split.
    + intros Ha. f_equal. by apply title_case_split.
    + intros ->. f_equal. by rewrite (proj1 (title_case_split "living_room" eq_refl)).
Qed.

End render.

(** ** Before the first configuration *)

Section life.
Context `{Helpers} `{StringPrototype}.

(** While [setConfig] has not been called the card is a new card, but for
    the snapshot it stored. *)
Lemma after_pushes (pushes : list HomeAssistant) :
  ∃ snapshot,
    after (SetHass <$> pushes) =
      {| _config := None; _states := None; _roomEntity := None;
         _problemEntities := []; _problemExists := false; _hass := snapshot |}.
Proof.
  induction pushes as [|hass pushes [snapshot IH]] using rev_ind.
  - by exists None.
  - exists (Some hass). unfold after in *.
    rewrite fmap_app, foldl_app, IH. cbn [fmap list_fmap foldl perform].
    destruct (set_hass_unconfigured hass
                {| _config := None; _states := None; _roomEntity := None;
                   _problemEntities := []; _problemExists := false;
                   _hass := snapshot |} eq_refl) as [e ->].
    done.
Qed.

(** C2, as the code has it.  A push that arrives before any configuration
    does not complete: the setter stores the snapshot and throws, on reading
    [area] of the undefined configuration unless a helper threw on that
    configuration before.  No reactive property is assigned, the card stays
    a new card but for the snapshot, and [render] gives the empty template
    before and after the push. *)
Theorem push_before_config (pushes : list HomeAssistant) (hass : HomeAssistant) :
  let this := after (SetHass <$> pushes) in
  let o := set_hass hass this in
  is_Throw (out_res o) ∧
  (is_Ok (getIconEntities hass None) → is_Ok (getRoomEntity hass None) →
   out_res o =
     Throw (TypeError "Cannot read properties of undefined (reading 'area')")) ∧
  out_log o = [] ∧
  out_card o = stopped hass new_card ∧
  render this = Ok html_empty ∧
  render (out_card o) = Ok html_empty.
Proof.
  intros this o. subst this o.
  destruct (after_pushes pushes) as [snapshot ->].
  set (this := {| _config := None; _states := None; _roomEntity := None;
                  _problemEntities := []; _problemExists := false;
                  _hass := snapshot |}).
  destruct (set_hass_unconfigured hass this eq_refl) as [e He].
  split_and!.
  - exists e. by rewrite He.
  - intros [states Hs] [roomEntity Hr].
    run_method.
    rewrite Hs; simpl. by rewrite Hr.
  - by rewrite He.
  - by rewrite He.
  - done.
  - by rewrite He.
Qed.

(** A card that has icon entities to render has been configured, has a
    room entity and has a snapshot: [render] reads no undefined field. *)
Lemma renderable_invariant (calls : list call) :
  is_Some (_states (after calls)) →
  is_Some (_config (after calls)) ∧ is_Some (_roomEntity (after calls)) ∧
  is_Some (_hass (after calls)).
Proof.
  unfold after. induction calls as [|c calls IH] using rev_ind.
  - by intros [? [=]].
  - rewrite foldl_app. cbn [foldl]. set (this := foldl perform new_card calls) in *.
    destruct c as [config|hass]; cbn [perform].
    + rewrite setConfig_held, setConfig_ok. cbn [out_card _states _roomEntity _hass].
      intros Hs. destruct (IH Hs) as (_ & ? & ?). eauto.
    + destruct (out_res (set_hass hass this)) as [[]|e] eqn:E.
      * destruct (set_hass_returns _ _ E)
          as (config & states & roomEntity & pe & px & Hc & Hs & Hr & Hp).
        rewrite (set_hass_ok _ _ _ _ _ _ _ Hc Hs Hr Hp).
        cbn [out_card _states _config _roomEntity _hass].
        rewrite (gate_value entity_val (Some roomEntity)) by apply entity_val_inj.
        eauto.
      * rewrite (set_hass_throws _ _ _ E). unfold stopped, set__hass.
        cbn [out_card _states _config _roomEntity _hass].
        intros Hs. destruct (IH Hs) as (? & ? & _). eauto.
Qed.

End life.

(** ** The card on the kitchen *)

(** Two pushes into a configured kitchen.  The first one, with the leak
    detector on, finds nothing stored: the three lists and the flag change.
    The second one, with the detector off, derives the stored room entity,
    icon entities and problem entities, which stay as they are without an
    assignment, and another flag. *)
Lemma set_hass_gates_witness :
  let this := out_card (setConfig kitchen_config new_card) in
  let first := set_hass (kitchen_hass "on") this in
  let second := set_hass (kitchen_hass "off") (out_card first) in
  derived (kitchen_hass "off") (out_card first) =
    Ok (spec_entityInformation (kitchen_hass "off") <$>
          [JStr "light.kitchen"; JStr "switch.kettle"],
        spec_entityInformation (kitchen_hass "off") (JStr "kitchen"),
        (["binary_sensor.kitchen_leak"], false)) ∧
  out_res second = Ok () ∧
  gated roomEntity_field entity_val
        (Some (spec_entityInformation (kitchen_hass "off") (JStr "kitchen")))
        (_roomEntity (out_card first)) (_roomEntity (out_card second))
        (out_log second) ∧
  gated states_field states_val
        (Some (spec_entityInformation (kitchen_hass "off") <$>
               [JStr "light.kitchen"; JStr "switch.kettle"]))
        (_states (out_card first)) (_states (out_card second)) (out_log second) ∧
  gated problemEntities_field ids_val ["binary_sensor.kitchen_leak"]
        (_problemEntities (out_card first)) (_problemEntities (out_card second))
        (out_log second) ∧
  value_gated problemExists_field JBool false (_problemExists (out_card first))
        (_problemExists (out_card second)) (out_log second) ∧
  out_log second = [Assigned problemExists_field true] ∧
  out_log first =
    [Assigned problemExists_field true; Assigned roomEntity_field true;
     Assigned states_field true; Assigned problemEntities_field true].
Proof.
  intros this first second.
  assert (derived (kitchen_hass "off") (out_card first) =
            Ok (spec_entityInformation (kitchen_hass "off") <$>
                  [JStr "light.kitchen"; JStr "switch.kettle"],
                spec_entityInformation (kitchen_hass "off") (JStr "kitchen"),
                (["binary_sensor.kitchen_leak"], false))) as Hd by compute_done.
  pose proof (set_hass_gates (kitchen_hass "off") (out_card first)) as Hgates.
  cbv zeta in Hgates. rewrite Hd in Hgates.
  destruct Hgates as (_ & _ & Hres & Hroom & Hstates & Hproblems & Hflag).
  split_and!; [exact Hd|exact Hres|exact Hroom|exact Hstates|exact Hproblems|
               exact Hflag|compute_done|compute_done].
Defined.

(** C2 fails on a new card: the push throws. *)
Lemma push_on_new_card_throws :
  out_res (set_hass (kitchen_hass "on") new_card) =
    Throw (TypeError "Cannot read properties of undefined (reading 'area')").
Proof. compute_done. Qed.

(** C4 on the code: for a configured kitchen and a snapshot in which
    neither sensor has a live state, the label is not blank, in the getter
    and in the rendered card. *)
Theorem label_without_state :
  let this := configured kitchen_config silent_hass in
  getState silent_hass (JStr "sensor.kitchen_climate_air_temperature") = None ∧
  getState silent_hass (JStr "sensor.kitchen_climate_humidity") = None ∧
  _getLabel this = Ok "undefined°C - undefined%" ∧
  match render this with
  | Ok (html_card t) => t_label t = "undefined°C - undefined%"
  | _ => False
  end.
Proof.
  split_and!; [compute_done..| |compute_done].
  apply (_getLabel_without_state _ silent_hass (cardConfig kitchen_config));
    compute_done.
Qed.

(** [setConfig({area: "kitchen"})] on a new card. *)
Lemma setConfig_defaults_witness :
  ∃ merged : Config,
    _config (out_card (setConfig {[ "area" := JStr "kitchen" ]} new_card)) = Some merged ∧
    merged !! "area" = Some (JStr "kitchen") ∧
    merged !! "temperature_sensor" =
      Some (JStr "sensor.kitchen_climate_air_temperature") ∧
    merged !! "humidity_sensor" = Some (JStr "sensor.kitchen_climate_humidity").
Proof.
  destruct (setConfig_defaults {[ "area" := JStr "kitchen" ]} new_card)
    as (merged & Hheld & Hgiven & _ & _ & _ & Hkitchen).
  exists merged. split; [exact Hheld|]. split.
  - apply Hgiven. compute_done.
  - apply Hkitchen; compute_done.
Defined.

(** The label of the kitchen. *)
Lemma label_formatting_witness :
  _getLabel (configured kitchen_config (kitchen_hass "off")) = Ok "21.5°C - 40%".
Proof.
  apply (label_formatting _ (kitchen_hass "off") (cardConfig kitchen_config)
           {[ "state" := JStr "21.5" ]} {[ "state" := JStr "40" ]});
    compute_done.
Defined.

(** The lamp and the kettle of the kitchen, in the order of [entities]. *)
Lemma icons_in_list_order_witness :
  ∃ t, render (configured kitchen_config (kitchen_hass "on")) = Ok (html_card t) ∧
       length (t_icons t) = 2 ∧
       t_icons t !! 0 =
         Some (spec_entityInformation (kitchen_hass "on") (JStr "light.kitchen"),
               ["entity"; "entity-1"]) ∧
       t_icons t !! 1 =
         Some (spec_entityInformation (kitchen_hass "on") (JStr "switch.kettle"),
               ["entity"; "entity-2"]).
Proof.
  destruct (rendered_card (render (configured kitchen_config (kitchen_hass "on")))
              ltac:(compute_done)) as [t Ht].
  assert (_states (configured kitchen_config (kitchen_hass "on")) =
            Some (spec_entityInformation (kitchen_hass "on") <$>
                    [JStr "light.kitchen"; JStr "switch.kettle"])) as Hs
    by compute_done.
  exists t. split; [exact Ht|].
  destruct (icons_in_list_order _ _ t Hs Ht) as (Hlen & Hat & _).
  split; [exact Hlen|]. split.
  - exact (Hat 0 _ eq_refl).
  - exact (Hat 1 _ eq_refl).
Defined.

(** The same kitchen with the kettle configured before the lamp: the cells
    change places, the positional classes do not. *)
Example icons_follow_configuration :
  let config : Config :=
    {[ "area" := JStr "kitchen";
       "entities" := JArr [JStr "switch.kettle"; JStr "light.kitchen"] ]} in
  match render (configured config (kitchen_hass "on")) with
  | Ok (html_card t) =>
      t_icons t =
        [(spec_entityInformation (kitchen_hass "on") (JStr "switch.kettle"),
          ["entity"; "entity-1"]);
         (spec_entityInformation (kitchen_hass "on") (JStr "light.kitchen"),
          ["entity"; "entity-2"])]
  | _ => False
  end.
Proof. compute_done. Qed.

(** C10 fails for a label that is set to the empty string: the card shows
    the name made from the area. *)
Lemma empty_label_not_shown :
  let config : Config :=
    {[ "area" := JStr "living_room"; "label" := JStr EmptyString ]} in
  let this := configured config silent_hass in
  _config this ≫= (.!! "label") = Some (JStr EmptyString) ∧
  match render this with
  | Ok (html_card t) => t_areaName t = JStr "Living Room"
  | _ => False
  end.
Proof. split; compute_done. Qed.

(** A living room without a label, and one labelled "Salon". *)
Lemma room_name_witness :
  (∃ t, render (configured {[ "area" := JStr "living_room" ]} silent_hass)
          = Ok (html_card t) ∧
        t_areaName t = JStr "Living Room") ∧
  (∃ t, render (configured {[ "area" := JStr "living_room"; "label" := JStr "Salon" ]}
                  silent_hass) = Ok (html_card t) ∧
        t_areaName t = JStr "Salon").
Proof.
  split.
  - destruct (rendered_card
                (render (configured {[ "area" := JStr "living_room" ]} silent_hass))
                ltac:(compute_done)) as [t Ht].
    exists t. split; [exact Ht|].
    destruct (room_name _ _ Ht) as (config & Hc & _ & Hname).
    assert (config = cardConfig {[ "area" := JStr "living_room" ]}) as ->.
    { unfold configured in Hc. apply (inj Some). rewrite <-Hc. compute_done. }
    destruct (Hname ltac:(compute_done)) as (area & Ha & _ & _ & Hliving).
    vm_compute in Ha. injection Ha as <-. exact (Hliving eq_refl).
  - destruct (rendered_card
                (render (configured {[ "area" := JStr "living_room";
                                       "label" := JStr "Salon" ]} silent_hass))
                ltac:(compute_done)) as [t Ht].
    exists t. split; [exact Ht|].
    destruct (room_name _ _ Ht) as (config & Hc & Hlabel & _).
    assert (config = cardConfig {[ "area" := JStr "living_room";
                                   "label" := JStr "Salon" ]}) as ->.
    { apply (inj Some). rewrite <-Hc. compute_done. }
    rewrite Hlabel; compute_done.
Defined.

(** * Further properties of the card *)

(** ** The room name *)

Lemma upper_not_underscore (c : ascii) : c ≠ "_"%char → ASCII.upper c ≠ "_"%char.
Proof. by destruct c as [[] [] [] [] [] [] [] []]. Qed.

Lemma upper_upper (c : ascii) : ASCII.upper (ASCII.upper c) = ASCII.upper c.
Proof. by destruct c as [[] [] [] [] [] [] [] []]. Qed.

Lemma title_case_length (start : bool) (s : string) :
  String.length (title_case start s) = String.length s.
Proof.
  revert start. induction s as [|c r IH]; intros start; [done|].
  cbn [title_case]. case_decide; cbn [String.length]; by rewrite IH.
Qed.

Lemma title_case_get (start : bool) (s : string) (i : nat) :
  String.get i (title_case start s) ≠ Some "_"%char ∧
  (String.get i s = Some "_"%char → String.get i (title_case start s) = Some " "%char).
Proof.
  revert start i. induction s as [|c r IH]; intros start i; [done|].
  cbn [title_case]. case_decide as Hc; destruct i as [|i]; cbn [String.get].
  - by subst.
  - apply IH.
  - split; [|congruence]. destruct start; [|congruence].
    intros [= Hu]. by apply (upper_not_underscore c).
  - apply IH.
Qed.

(** A name without underscore is changed by the formatting in its first
    character at most. *)
Lemma title_case_without_underscore (s : string) :
  (∀ i, String.get i s ≠ Some "_"%char) → title_case false s = s.
Proof.
  induction s as [|c r IH]; intros Hs; [done|].
  cbn [title_case]. rewrite decide_False by (intros ->; by apply (Hs 0)).
  f_equal. apply IH. intros i. apply (Hs (S i)).
Qed.

Lemma title_case_title_case (s : string) :
  title_case true (title_case true s) = title_case true s.
Proof.
  destruct s as [|c r]; [done|]. cbn [title_case]. case_decide as Hc.
  - cbn [title_case]. rewrite decide_False by done. f_equal.
    apply title_case_without_underscore. intros i. apply title_case_get.
  - cbn [title_case]. rewrite decide_False by by apply upper_not_underscore.
    rewrite upper_upper. f_equal.
    apply title_case_without_underscore. intros i. apply title_case_get.
Qed.

(** The name of an identifier of ASCII characters is made of ASCII
    characters. *)
Lemma title_case_ascii (start : bool) (s : string) :
  ASCII.only s = true → ASCII.only (title_case start s) = true.
Proof.
  revert start. induction s as [|c r IH]; intros start Hs; [done|].
  cbn [ASCII.only] in Hs. apply andb_prop in Hs as [Hc Hr].
  cbn [title_case]. case_decide; cbn [ASCII.only].
  - by rewrite IH.
  - rewrite IH by done. destruct start; [|by rewrite Hc].
    by rewrite is_ascii_upper.
Qed.

Section room_name_facts.
Context `{Helpers} `{StringPrototype}.

Lemma _formatAreaName_string (this : Card) (config : Config) (area : string) :
  _config this = Some config → config.["area"] = JStr area →
  _formatAreaName this = Ok (JS.join " " (capitalize <$> JS.split "_" area)).
Proof.
  intros Hc Ha. unfold _formatAreaName. rewrite Hc; simpl. by rewrite Ha.
Qed.

Lemma _formatAreaName_ascii (this : Card) (config : Config) (area : string) :
  _config this = Some config → config.["area"] = JStr area →
  ASCII.only area = true →
  _formatAreaName this = Ok (title_case true area).
Proof.
  intros Hc Ha Hascii. rewrite (_formatAreaName_string _ _ _ Hc Ha).
  f_equal. by apply title_case_split.
Qed.

(** X1.  The formatted name of an area identifier of ASCII characters has as
    many characters as the identifier, holds no underscore, and has a space
    wherever the identifier has an underscore. *)
Theorem formatAreaName_shape (this : Card) (config : Config) (area : string) :
  _config this = Some config →
  config.["area"] = JStr area →
  ASCII.only area = true →
  ∃ name, _formatAreaName this = Ok name ∧
    String.length name = String.length area ∧
    (∀ i, String.get i name ≠ Some "_"%char) ∧
    (∀ i, String.get i area = Some "_"%char → String.get i name = Some " "%char).
Proof.
  intros Hc Ha Hascii. exists (title_case true area).
  split; [by apply (_formatAreaName_ascii _ config)|].
  split; [apply title_case_length|].
  split; intros i; apply title_case_get.
Qed.

(** X2.  Formatting is idempotent on identifiers of ASCII characters: the
    name of such an area is again made of ASCII characters, and a card whose
    area is that name shows it unchanged. *)
Theorem formatAreaName_idempotent (this : Card) (config : Config) (area : string) :
  _config this = Some config →
  config.["area"] = JStr area →
  ASCII.only area = true →
  ∃ name, _formatAreaName this = Ok name ∧
    ASCII.only name = true ∧
    ∀ this' config',
      _config this' = Some config' →
      config'.["area"] = JStr name →
      _formatAreaName this' = Ok name.
Proof.
  intros Hc Ha Hascii. exists (title_case true area).
  split; [by apply (_formatAreaName_ascii _ config)|].
  split; [by apply title_case_ascii|].
  intros this' config' Hc' Ha'.
  rewrite (_formatAreaName_ascii _ _ _ Hc' Ha') by by apply title_case_ascii.
  f_equal. apply title_case_title_case.
Qed.

(** X3.  A card that holds icon entities and a configuration with neither a
    truthy label nor an area cannot render: [render] throws the TypeError of
    calling [split] on [undefined]. *)
Theorem render_without_area (this : Card) (config : Config)
    (states : list EntityInformation) (roomEntity : EntityInformation) :
  _states this = Some states →
  _roomEntity this = Some roomEntity →
  _config this = Some config →
  ToBoolean config.["label"] = false →
  config !! "area" = None →
  render this =
    Throw (TypeError "Cannot read properties of undefined (reading 'split')").
Proof.
  intros Hs Hr Hc Hl Ha. unfold render, _formatAreaName.
  rewrite Hs, Hr, Hc; simpl. rewrite Hl; simpl.
  unfold prop. by rewrite Ha.
Qed.

End room_name_facts.

(** X1 on the fixtures. *)
Lemma formatAreaName_shape_witness :
  ∃ name, _formatAreaName (configured {[ "area" := JStr "living_room" ]} silent_hass)
            = Ok name ∧
    String.length name = 11 ∧
    (∀ i, String.get i name ≠ Some "_"%char) ∧
    (∀ i, String.get i "living_room" = Some "_"%char →
          String.get i name = Some " "%char).
Proof.
  apply (formatAreaName_shape _ (cardConfig {[ "area" := JStr "living_room" ]})
           "living_room"); compute_done.
Defined.

(** X2 on the fixtures. *)
Lemma formatAreaName_idempotent_witness :
  _formatAreaName (configured {[ "area" := JStr "living_room" ]} silent_hass)
    = Ok "Living Room" ∧
  _formatAreaName (configured {[ "area" := JStr "Living Room" ]} silent_hass)
    = Ok "Living Room".
Proof.
  destruct (formatAreaName_idempotent
              (configured {[ "area" := JStr "living_room" ]} silent_hass)
              (cardConfig {[ "area" := JStr "living_room" ]}) "living_room")
    as (name & Hname & _ & Hagain); [compute_done..|].
  assert (Ok name = Ok "Living Room") as [= ->]
    by (rewrite <-Hname; compute_done).
  split; [exact Hname|].
  apply (Hagain _ (cardConfig {[ "area" := JStr "Living Room" ]})); compute_done.
Defined.

(** X3 on the fixtures. *)
Lemma render_without_area_witness :
  render (configured {[ "entities" := JArr [JStr "light.kitchen"] ]} silent_hass) =
    Throw (TypeError "Cannot read properties of undefined (reading 'split')").
Proof.
  apply (render_without_area _
           (cardConfig {[ "entities" := JArr [JStr "light.kitchen"] ]})
           [spec_entityInformation silent_hass (JStr "light.kitchen")]
           (spec_entityInformation silent_hass JUndef));
    compute_done.
Defined.

(** ** The climate label and the statistics *)

Lemma append_assoc (a b c : string) : (a +:+ b) +:+ c = a +:+ b +:+ c.
Proof.
  induction a as [|x a IH]; [done|].
  change (String x ((a +:+ b) +:+ c) = String x (a +:+ b +:+ c)). by f_equal.
Qed.

Lemma filterM_length {A} (p : A → result bool) (xs ys : list A) :
  filterM p xs = Ok ys → (length ys ≤ length xs)%nat.
Proof.
  revert ys. induction xs as [|x xs IH]; intros ys; cbn [filterM].
  - by intros [= <-].
  - destruct (p x) as [b|]; [|done]. cbn [mbind result_bind].
    destruct (filterM p xs) as [zs|]; [|done]. cbn [mbind result_bind].
    intros [= <-]. specialize (IH zs eq_refl). destruct b; cbn [length]; lia.
Qed.

Lemma filterM_returns {A} (p : A → result bool) (xs : list A) :
  (∀ x, x ∈ xs → is_Ok (p x)) → is_Ok (filterM p xs).
Proof.
  induction xs as [|x xs IH]; intros Hp; cbn [filterM]; [by eexists|].
  destruct (Hp x ltac:(left)) as [b ->]. cbn [mbind result_bind].
  destruct IH as [ys ->]; [intros y Hy; apply Hp; by right|].
  by eexists.
Qed.

Section label_facts.
Context `{Helpers} `{StringPrototype}.

Lemma set_hass_config (hass : HomeAssistant) (this : Card) :
  _config (out_card (set_hass hass this)) = _config this.
Proof.
  destruct (out_res (set_hass hass this)) as [[]|e] eqn:E.
  - destruct (set_hass_returns _ _ E)
      as (config & states & roomEntity & pe & px & Hc & Hs & Hr & Hp).
    by rewrite (set_hass_ok _ _ _ _ _ _ _ Hc Hs Hr Hp), Hc.
  - by rewrite (set_hass_throws _ _ _ E).
Qed.

Lemma label_unit_returns (this : Card) (hass : HomeAssistant) (config : Config) :
  _hass this = Some hass →
  _config this = Some config →
  ToBoolean config.["area"] = true →
  ToBoolean config.["unit"] = false ∨ (∃ u, config.["unit"] = JStr u) →
  is_Ok (_getLabel this).
Proof.
  intros Hh Hc Ha Hu. unfold _getLabel. rewrite Hh, Hc; simpl. rewrite Ha; simpl.
  destruct Hu as [->|[u Hu]]; simpl; [by eexists|].
  rewrite Hu; simpl. destruct (bool_decide (u = EmptyString)); by eexists.
Qed.

(** X4.  The label getter of a card with a snapshot and an area returns exactly
    when the configured unit is falsy or a string; a non-empty unit is shown
    as its [toUpperCase()]. *)
Theorem label_unit (this : Card) (hass : HomeAssistant) (config : Config) :
  _hass this = Some hass →
  _config this = Some config →
  ToBoolean config.["area"] = true →
  (is_Ok (_getLabel this) ↔
   ToBoolean config.["unit"] = false ∨ ∃ u, config.["unit"] = JStr u) ∧
  (∀ u, config.["unit"] = JStr u → u ≠ EmptyString →
     _getLabel this =
       Ok (ToString (optional_prop (getState hass config.["temperature_sensor"]) "state")
           +:+ "°" +:+ toUpperCase u +:+ " - " +:+
           ToString (optional_prop (getState hass config.["humidity_sensor"]) "state")
           +:+ "%")).
Proof.
  intros Hh Hc Ha. unfold _getLabel. rewrite Hh, Hc; simpl. rewrite Ha; simpl.
  split.
  - destruct (config.["unit"]) as [| |[]|u| |] eqn:Hu; simpl.
    + split; [by left|by eexists].
    + split; [by left|by eexists].
    + split; [by intros [? [=]]|]. by intros [[=]|[? [=]]].
    + split; [by left|by eexists].
    + split; [intros _; right; by eexists|].
      intros _. destruct (bool_decide (u = EmptyString)); by eexists.
    + split; [by intros [? [=]]|]. by intros [[=]|[? [=]]].
    + split; [by intros [? [=]]|]. by intros [[=]|[? [=]]].
  - intros u -> Hu. simpl. by rewrite bool_decide_eq_false_2.
Qed.

(** X5.  For a configuration with a truthy area and no unit: after
    [setConfig(config)] and a push of [hass], from any card and whether or
    not the push completes, the label shows, in degrees C, the states that
    [hass] holds for the two sensor ids of [config], the ids derived from
    the area standing in for those that [config] leaves out. *)
Theorem label_follows_configuration (config : Config) (hass : HomeAssistant)
    (before : Card) :
  ToBoolean config.["area"] = true →
  config !! "unit" = None →
  let this := out_card (set_hass hass (out_card (setConfig config before))) in
  let temperature_sensor :=
    default (JStr ("sensor." +:+ ToString config.["area"] +:+ "_climate_air_temperature"))
            (config !! "temperature_sensor") in
  let humidity_sensor :=
    default (JStr ("sensor." +:+ ToString config.["area"] +:+ "_climate_humidity"))
            (config !! "humidity_sensor") in
  _getLabel this =
    Ok (ToString (optional_prop (getState hass temperature_sensor) "state")
        +:+ "°C - " +:+
        ToString (optional_prop (getState hass humidity_sensor) "state") +:+ "%").
Proof.
  intros Ha Hu this temperature_sensor humidity_sensor.
  assert (_config this = Some (cardConfig config)) as Hc
    by (unfold this; by rewrite set_hass_config, setConfig_held).
  assert (_hass this = Some hass) as Hh by apply set_hass_stored.
  assert (∀ k, (cardConfig config).[k] = default JUndef (cardConfig config !! k))
    as Hprop by done.
  rewrite (_getLabel_configured this hass (cardConfig config) Hh Hc).
  - rewrite !Hprop, !cardConfig_lookup. unfold temperature_sensor, humidity_sensor.
    by destruct (config !! "temperature_sensor"), (config !! "humidity_sensor").
  - rewrite Hprop, cardConfig_lookup. unfold prop in Ha.
    by destruct (config !! "area").
  - by rewrite cardConfig_lookup, Hu.
Qed.

(** X6.  When the statistics getter returns for a card with a snapshot and an
    area, its text always names both counts, a count of zero included, and
    neither count exceeds the number of keys of its registry. *)
Theorem area_statistics_counts (this : Card) (hass : HomeAssistant)
    (config : Config) (stats : string) :
  _hass this = Some hass →
  _config this = Some config →
  ToBoolean config.["area"] = true →
  _getAreaStatistics this = Ok stats →
  ∃ device_ids entity_ids nd ne,
    Object_keys hass.["devices"] = Ok device_ids ∧
    Object_keys hass.["entities"] = Ok entity_ids ∧
    (nd ≤ length device_ids)%nat ∧ (ne ≤ length entity_ids)%nat ∧
    stats = pretty nd +:+ " devices " +:+ pretty ne +:+ " entities".
Proof.
  intros Hh Hc Ha. unfold _getAreaStatistics. rewrite Hh, Hc; simpl. rewrite Ha; simpl.
  destruct (Object_keys hass.["devices"]) as [device_ids|]; simpl; [|done].
  destruct (filterM _ device_ids) as [devices|] eqn:Hd; simpl; [|done].
  destruct (Object_keys hass.["entities"]) as [entity_ids|]; simpl; [|done].
  destruct (filterM _ entity_ids) as [entities|] eqn:He; simpl; [|done].
  intros [= <-]. exists device_ids, entity_ids, (length devices), (length entities).
  split_and!; [done..|by eapply filterM_length|by eapply filterM_length|].
  by rewrite append_assoc.
Qed.

(** X7.  With empty device and entity registries the statistics are
    "0 devices 0 entities", not a blank text, whatever the helpers do. *)
Theorem area_statistics_empty (this : Card) (hass : HomeAssistant) (config : Config) :
  _hass this = Some hass →
  _config this = Some config →
  ToBoolean config.["area"] = true →
  hass.["devices"] = JObj ∅ →
  hass.["entities"] = JObj ∅ →
  _getAreaStatistics this = Ok "0 devices 0 entities".
Proof.
  intros Hh Hc Ha Hd He. unfold _getAreaStatistics.
  rewrite Hh, Hc; simpl. rewrite Ha, Hd, He; simpl.
  by rewrite map_to_list_empty.
Qed.

End label_facts.

(** X4 on the fixtures. *)
Lemma label_unit_witness :
  let config : Config := {[ "area" := JStr "kitchen"; "unit" := JStr "f" ]} in
  _getLabel (configured config (kitchen_hass "on")) = Ok "21.5°F - 40%".
Proof.
  apply (proj2 (label_unit
                  (configured {[ "area" := JStr "kitchen"; "unit" := JStr "f" ]}
                     (kitchen_hass "on"))
                  (kitchen_hass "on")
                  (cardConfig {[ "area" := JStr "kitchen"; "unit" := JStr "f" ]})
                  ltac:(compute_done) ltac:(compute_done) ltac:(compute_done))
               "f"); compute_done.
Defined.

(** X5 on the fixtures. *)
Lemma label_follows_configuration_witness :
  let config : Config :=
    {[ "area" := JStr "kitchen"; "temperature_sensor" := JStr "switch.kettle" ]} in
  _getLabel (out_card (set_hass (kitchen_hass "on") (out_card (setConfig config new_card))))
    = Ok "off°C - 40%".
Proof.
  etrans.
  - apply (label_follows_configuration
             {[ "area" := JStr "kitchen"; "temperature_sensor" := JStr "switch.kettle" ]}
             (kitchen_hass "on") new_card); compute_done.
  - compute_done.
Defined.

(** X6 on the fixtures. *)
Lemma area_statistics_counts_witness :
  ∃ device_ids entity_ids nd ne,
    Object_keys (kitchen_hass "on").["devices"] = Ok device_ids ∧
    Object_keys (kitchen_hass "on").["entities"] = Ok entity_ids ∧
    (nd ≤ length device_ids)%nat ∧ (ne ≤ length entity_ids)%nat ∧
    "1 devices 3 entities" = pretty nd +:+ " devices " +:+ pretty ne +:+ " entities".
Proof.
  apply (area_statistics_counts (configured kitchen_config (kitchen_hass "on"))
           (kitchen_hass "on") (cardConfig kitchen_config)); compute_done.
Defined.

(** X7 on the fixtures. *)
Lemma area_statistics_empty_witness :
  _getAreaStatistics (configured kitchen_config silent_hass) = Ok "0 devices 0 entities".
Proof.
  apply (area_statistics_empty _ silent_hass (cardConfig kitchen_config));
    compute_done.
Defined.

(** ** State pushes *)

Section push_facts.
Context `{Helpers}.

(** X8.  A push either throws, having stored the snapshot and nothing else, or
    completes and leaves the four derived fields with the values the
    helpers returned for this snapshot: it never updates a part of them. *)
Theorem set_hass_all_or_nothing (hass : HomeAssistant) (this : Card) :
  let o := set_hass hass this in
  (is_Throw (out_res o) ∧ out_log o = [] ∧
   out_card o =
     {| _config := _config this; _states := _states this;
        _roomEntity := _roomEntity this;
        _problemEntities := _problemEntities this;
        _problemExists := _problemExists this; _hass := Some hass |}) ∨
  (∃ config states roomEntity problemEntities problemExists,
     _config this = Some config ∧
     getIconEntities hass (Some config) = Ok states ∧
     getRoomEntity hass (Some config) = Ok roomEntity ∧
     getProblemEntities hass config.["area"] = Ok (problemEntities, problemExists) ∧
     out_res o = Ok () ∧
     out_card o =
       {| _config := Some config; _states := Some states;
          _roomEntity := Some roomEntity;
          _problemEntities := problemEntities;
          _problemExists := problemExists; _hass := Some hass |}).
Proof.
  intros o. subst o.
  destruct (out_res (set_hass hass this)) as [[]|e] eqn:E.
  - right.
    destruct (set_hass_returns _ _ E)
      as (config & states & roomEntity & pe & px & Hc & Hs & Hr & Hp).
    exists config, states, roomEntity, pe, px. split_and!; [done..|].
    rewrite (set_hass_ok _ _ _ _ _ _ _ Hc Hs Hr Hp). cbn [out_card].
    by rewrite !gate_value by auto using states_val_inj, entity_val_inj, ids_val_inj.
  - left. rewrite (set_hass_throws _ _ _ E). split; [by exists e|done].
Qed.

(** X9.  A completed push forgets what the card held before: two cards with the
    same configuration are the same card after the same push. *)
Theorem set_hass_forgets (hass : HomeAssistant) (this this' : Card) :
  _config this = _config this' →
  is_Ok (out_res (set_hass hass this)) →
  out_res (set_hass hass this') = Ok () ∧
  out_card (set_hass hass this') = out_card (set_hass hass this).
Proof.
  intros Hcc [[] Hok].
  destruct (set_hass_returns _ _ Hok)
    as (config & states & roomEntity & pe & px & Hc & Hs & Hr & Hp).
  assert (_config this' = Some config) as Hc' by congruence.
  rewrite (set_hass_ok _ this _ _ _ _ _ Hc Hs Hr Hp).
  rewrite (set_hass_ok _ this' _ _ _ _ _ Hc' Hs Hr Hp). cbn [out_card out_res].
  by rewrite !gate_value by auto using states_val_inj, entity_val_inj, ids_val_inj.
Qed.

(** X10.  A push of a second snapshot for which the helpers return what they
    returned for the first changes no reactive field and requests no
    render; only the stored snapshot is replaced. *)
Theorem set_hass_equal_derivation (hass hass' : HomeAssistant) (this : Card) :
  is_Ok (out_res (set_hass hass this)) →
  getIconEntities hass' (_config this) = getIconEntities hass (_config this) →
  getRoomEntity hass' (_config this) = getRoomEntity hass (_config this) →
  (∀ config, _config this = Some config →
     getProblemEntities hass' config.["area"] = getProblemEntities hass config.["area"]) →
  let first := set_hass hass this in
  let second := set_hass hass' (out_card first) in
  out_res second = Ok () ∧
  (∀ f, render_requested f (out_log second) = false) ∧
  out_card second =
    {| _config := _config (out_card first); _states := _states (out_card first);
       _roomEntity := _roomEntity (out_card first);
       _problemEntities := _problemEntities (out_card first);
       _problemExists := _problemExists (out_card first); _hass := Some hass' |}.
Proof.
  intros [[] Hok] Hs' Hr' Hp' first second. subst first second.
  destruct (set_hass_returns _ _ Hok)
    as (config & states & roomEntity & pe & px & Hc & Hs & Hr & Hp).
  rewrite Hc in Hs', Hr'. specialize (Hp' _ Hc).
  rewrite Hs in Hs'. rewrite Hr in Hr'. rewrite Hp in Hp'.
  rewrite (set_hass_ok _ this _ _ _ _ _ Hc Hs Hr Hp). cbn [out_card].
  erewrite set_hass_ok; [|done..].
  cbn [out_card out_log out_res _config _states _roomEntity _problemEntities
         _problemExists].
  rewrite !gate_value by auto using states_val_inj, entity_val_inj, ids_val_inj.
  rewrite !equal_refl. split_and!; [done| |done].
  by intros [].
Qed.

(** X11.  A call requests a render for a reactive property exactly when it
    changes the value of that property: no push and no configuration
    requests a render for a value that stays, or changes a value silently. *)
Theorem render_requested_iff_changed (this : Card) (f : field) :
  (∀ hass, let o := set_hass hass this in
     render_requested f (out_log o) = true ↔
     field_val f (out_card o) ≠ field_val f this) ∧
  (∀ config, let o := setConfig config this in
     render_requested f (out_log o) = true ↔
     field_val f (out_card o) ≠ field_val f this).
Proof.
  split.
  - intros hass o. subst o.
    destruct (out_res (set_hass hass this)) as [[]|e] eqn:E.
    + destruct (set_hass_returns _ _ E)
        as (config & states & roomEntity & pe & px & Hc & Hs & Hr & Hp).
      rewrite (set_hass_ok _ _ _ _ _ _ _ Hc Hs Hr Hp). cbn [out_card out_log].
      destruct (equal (entity_val _) _) eqn:Er;
        destruct (equal (states_val _) _) eqn:Es;
        destruct (equal (ids_val _) _) eqn:Ep;
        destruct (equal (JBool _) _) eqn:Ex;
        destruct f; cbn [field_val _config _states _roomEntity _problemEntities
                           _problemExists negb app];
        try (split; [by intros [=]|]; intros Hne; exfalso; apply Hne;
             first [done | by rewrite Hc | by apply equal_eq in Ex; injection Ex as ->]);
        (split; [intros _|done]);
        intros Heq; rewrite Heq, equal_refl in *; done.
    + rewrite (set_hass_throws _ _ _ E). cbn [out_card out_log].
      split; [by intros [=]|]. by destruct f.
  - intros config o. subst o. rewrite setConfig_ok. cbn [out_card out_log].
    destruct (equal _ _) eqn:Ec; destruct f; cbn [field_val _config _states
      _roomEntity _problemEntities _problemExists];
      try (split; [by intros [=]|]; intros Hne; by exfalso).
    split; [intros _|done]. intros Heq. rewrite Heq, equal_refl in Ec. done.
Qed.

End push_facts.

(** X9 on the fixtures. *)
Lemma set_hass_forgets_witness :
  let this := out_card (setConfig kitchen_config new_card) in
  let this' := configured kitchen_config (kitchen_hass "off") in
  out_res (set_hass (kitchen_hass "on") this') = Ok () ∧
  out_card (set_hass (kitchen_hass "on") this') =
    out_card (set_hass (kitchen_hass "on") this).
Proof.
  apply (set_hass_forgets (kitchen_hass "on")
           (out_card (setConfig kitchen_config new_card))
           (configured kitchen_config (kitchen_hass "off"))).
  - compute_done.
  - exists (). compute_done.
Defined.

(** X10 on the fixtures. *)
Lemma set_hass_equal_derivation_witness :
  let this := out_card (setConfig kitchen_config new_card) in
  let first := set_hass (kitchen_hass "on") this in
  let second := set_hass (reheated (kitchen_hass "on")) (out_card first) in
  out_res second = Ok () ∧
  (∀ f, render_requested f (out_log second) = false) ∧
  out_card second =
    {| _config := _config (out_card first); _states := _states (out_card first);
       _roomEntity := _roomEntity (out_card first);
       _problemEntities := _problemEntities (out_card first);
       _problemExists := _problemExists (out_card first);
       _hass := Some (reheated (kitchen_hass "on")) |}.
Proof.
  apply (set_hass_equal_derivation (kitchen_hass "on") (reheated (kitchen_hass "on"))
           (out_card (setConfig kitchen_config new_card))).
  - exists (). compute_done.
  - compute_done.
  - compute_done.
  - intros config Hc.
    assert (config = cardConfig kitchen_config) as ->
      by (apply (inj Some); rewrite <-Hc; compute_done).
    compute_done.
Defined.

(** ** Configurations *)

(** X12.  Merging is idempotent: the merged configuration merges to itself, so
    handing the held configuration back to [setConfig] assigns nothing. *)
Theorem setConfig_of_held (config : Config) (this : Card) :
  cardConfig (cardConfig config) = cardConfig config ∧
  let held := out_card (setConfig config this) in
  setConfig (cardConfig config) held = Outcome held [] (Ok ()).
Proof.
  assert (cardConfig (cardConfig config) = cardConfig config) as Hmerged.
  { apply map_eq. intros k. rewrite (cardConfig_lookup (cardConfig config)).
    rewrite cardConfig_area, cardConfig_lookup.
    destruct (config !! k); [done|]. by repeat case_decide. }
  split; [done|]. intros held. subst held.
  rewrite (setConfig_ok (cardConfig config)), Hmerged, setConfig_held, equal_refl.
  rewrite <-(setConfig_held config this). by destruct (out_card _).
Qed.

(** X13.  [setConfig] accepts a configuration without area: it returns, and the
    sensor ids it derives are spelled with [undefined] for the area. *)
Theorem setConfig_without_area (config : Config) (this : Card) :
  config !! "area" = None →
  let o := setConfig config this in
  out_res o = Ok () ∧
  ∃ merged : Config,
    _config (out_card o) = Some merged ∧
    merged !! "area" = None ∧
    (config !! "temperature_sensor" = None →
     merged !! "temperature_sensor" =
       Some (JStr "sensor.undefined_climate_air_temperature")) ∧
    (config !! "humidity_sensor" = None →
     merged !! "humidity_sensor" = Some (JStr "sensor.undefined_climate_humidity")).
Proof.
  intros Ha o. subst o. split; [by rewrite setConfig_ok|].
  exists (cardConfig config). split; [apply setConfig_held|].
  rewrite !cardConfig_lookup, Ha. unfold prop. rewrite Ha.
  split_and!; [done| |]; by intros ->.
Qed.

(** X13 on the fixtures. *)
Lemma setConfig_without_area_witness :
  let o := setConfig {[ "entities" := JArr [JStr "light.kitchen"] ]} new_card in
  out_res o = Ok () ∧
  ∃ merged : Config,
    _config (out_card o) = Some merged ∧
    merged !! "area" = None ∧
    (({[ "entities" := JArr [JStr "light.kitchen"] ]} : Config) !! "temperature_sensor"
       = None →
     merged !! "temperature_sensor" =
       Some (JStr "sensor.undefined_climate_air_temperature")) ∧
    (({[ "entities" := JArr [JStr "light.kitchen"] ]} : Config) !! "humidity_sensor"
       = None →
     merged !! "humidity_sensor" = Some (JStr "sensor.undefined_climate_humidity")).
Proof.
  apply (setConfig_without_area {[ "entities" := JArr [JStr "light.kitchen"] ]} new_card).
  compute_done.
Defined.

(** ** Sequences of calls *)

Section life_facts.
Context `{Helpers} `{StringPrototype}.

Lemma after_snoc (calls : list call) (c : call) :
  after (calls ++ [c]) = perform (after calls) c.
Proof. unfold after. by rewrite foldl_app. Qed.

(** X14.  Whatever the calls, the card holds the merge of the last configuration
    it was given and the last snapshot that was pushed, the snapshot of a
    push that threw included. *)
Theorem card_remembers_last (calls : list call) :
  _config (after calls) =
    cardConfig <$> last (omap (λ c, match c with
                                    | SetConfig config => Some config
                                    | SetHass _ => None
                                    end) calls) ∧
  _hass (after calls) =
    last (omap (λ c, match c with
                     | SetHass hass => Some hass
                     | SetConfig _ => None
                     end) calls).
Proof.
  induction calls as [|c calls [IHc IHh]] using rev_ind; [done|].
  rewrite after_snoc, !omap_app, !last_app.
  destruct c as [config|hass]; cbn [perform omap list_omap last].
  - rewrite setConfig_held. split; [done|]. by rewrite setConfig_ok.
  - by rewrite set_hass_config, set_hass_stored.
Qed.

Lemma render_empty_states (this : Card) :
  render this = Ok html_empty ↔ _states this = None.
Proof.
  split; [|apply render_empty]. unfold render.
  destruct (_states this) as [states|]; [|done].
  destruct (_roomEntity this); simpl; [|done].
  destruct (match _config this with Some _ => _ | None => _ end); simpl; [|done].
  destruct (_getLabel this); simpl; [|done].
  by destruct (_getAreaStatistics this).
Qed.

Lemma states_after_call (this : Card) (c : call) :
  is_Some (_states (perform this c)) ↔
  is_Some (_states this) ∨
  ∃ hass, c = SetHass hass ∧ is_Ok (out_res (set_hass hass this)).
Proof.
  destruct c as [config|hass]; cbn [perform].
  - rewrite setConfig_ok. cbn [out_card _states]. split; [by left|].
    by intros [?|(? & [=] & _)].
  - destruct (out_res (set_hass hass this)) as [[]|e] eqn:E.
    + destruct (set_hass_returns _ _ E)
        as (config & states & roomEntity & pe & px & Hc & Hs & Hr & Hp).
      rewrite (set_hass_ok _ _ _ _ _ _ _ Hc Hs Hr Hp). cbn [out_card _states].
      rewrite (gate_value states_val (Some states)) by apply states_val_inj.
      split; [|by eexists]. intros _. right. exists hass. split; [done|].
      by eexists.
    + rewrite (set_hass_throws _ _ _ E). cbn [stopped set__hass out_card _states].
      split; [by left|]. intros [?|(? & [= <-] & [? Hok])]; [done|].
      by rewrite E in Hok.
Qed.

Lemma completed_push_snoc (calls : list call) (c : call) :
  (∃ before hass rest,
     (calls ++ [c])%list = (before ++ SetHass hass :: rest)%list ∧
     is_Ok (out_res (set_hass hass (after before)))) ↔
  (∃ before hass rest,
     calls = (before ++ SetHass hass :: rest)%list ∧
     is_Ok (out_res (set_hass hass (after before)))) ∨
  ∃ hass, c = SetHass hass ∧ is_Ok (out_res (set_hass hass (after calls))).
Proof.
  split.
  - intros (before & hass & rest & Hcalls & Hok).
    destruct rest as [|r rest _] using rev_ind.
    + apply app_inj_tail in Hcalls as [-> ->]. right. by exists hass.
    + rewrite app_comm_cons, app_assoc in Hcalls.
      apply app_inj_tail in Hcalls as [-> ->]. left. by exists before, hass, rest.
  - intros [(before & hass & rest & -> & Hok)|(hass & -> & Hok)].
    + exists before, hass, (rest ++ [c])%list. by rewrite <-app_assoc.
    + by exists calls, hass, [].
Qed.

(** X15.  [render] gives the empty template exactly until the first push that
    completes, and never again after it. *)
Theorem render_empty_until_first_push (calls : list call) :
  render (after calls) = Ok html_empty ↔
  ¬ ∃ before hass rest,
      calls = (before ++ SetHass hass :: rest)%list ∧
      is_Ok (out_res (set_hass hass (after before))).
Proof.
  rewrite render_empty_states, eq_None_not_Some. apply not_iff_compat.
  induction calls as [|c calls IH] using rev_ind.
  - split; [by intros [? [=]]|]. intros (before & hass & rest & Hcalls & _).
    by destruct before.
  - by rewrite after_snoc, states_after_call, completed_push_snoc, IH.
Qed.

End life_facts.

(** ** When [render] returns *)

Lemma append_inj_r (a b c : string) : a +:+ b = a +:+ c → b = c.
Proof.
  induction a as [|x a IH]; [done|].
  change (String x (a +:+ b) = String x (a +:+ c) → b = c). intros [= Hbc]. auto.
Qed.

(** X16.  The badge shows the number of problem entities and, when there are
    some, the flag, and nothing else: two cards have the same problem
    indicator exactly when they agree on these. *)
Theorem problem_indicator_faithful (this this' : Card) :
  _renderProblemIndicator this = _renderProblemIndicator this' ↔
  length (_problemEntities this) = length (_problemEntities this') ∧
  (_problemEntities this ≠ [] → _problemExists this = _problemExists this').
Proof.
  unfold _renderProblemIndicator.
  destruct (_problemEntities this) as [|id ids], (_problemEntities this') as [|id' ids'];
    cbn [length]; rewrite ?bool_decide_eq_true_2, ?bool_decide_eq_false_2 by done.
  - by split.
  - split; [done|]. by intros [[=] _].
  - split; [done|]. by intros [[=] _].
  - split.
    + intros [= Hicon Hstyle]. apply append_inj_r, (inj pretty) in Hicon.
      split; [done|]. intros _.
      by destruct (_problemExists this), (_problemExists this').
    + intros [-> Hflag]. by rewrite Hflag.
Qed.

Section render_facts.
Context `{Helpers} `{StringPrototype}.

Lemma render_returns_when (this : Card) (states : list EntityInformation)
    (roomEntity : EntityInformation) (config : Config) :
  _states this = Some states →
  _roomEntity this = Some roomEntity →
  _config this = Some config →
  ToBoolean config.["label"] = true ∨ is_Ok (_formatAreaName this) →
  is_Ok (_getLabel this) →
  is_Ok (_getAreaStatistics this) →
  ∃ t, render this = Ok (html_card t) ∧
       t_label t = default EmptyString
                     (match _getLabel this with Ok l => Some l | Throw _ => None end) ∧
       t_stats t = default EmptyString
                     (match _getAreaStatistics this with
                      | Ok s => Some s
                      | Throw _ => None
                      end) ∧
       (ToBoolean config.["label"] = true → t_areaName t = config.["label"]).
Proof.
  intros Hs Hr Hc Hname [label Hl] [stats Hst]. unfold render.
  rewrite Hs, Hr, Hc, Hl, Hst; simpl.
  destruct (ToBoolean config.["label"]) eqn:Hlabel; simpl.
  - by eexists.
  - destruct Hname as [|[name ->]]; [done|]. simpl. by eexists.
Qed.

(** X17.  A card that holds icon entities, a snapshot and a configuration with a
    truthy label but a falsy area renders: it shows the label, and a blank
    climate text and blank statistics. *)
Theorem render_with_label_only (this : Card) (states : list EntityInformation)
    (roomEntity : EntityInformation) (config : Config) :
  _states this = Some states →
  _roomEntity this = Some roomEntity →
  _config this = Some config →
  ToBoolean config.["label"] = true →
  ToBoolean config.["area"] = false →
  ∃ t, render this = Ok (html_card t) ∧
       t_areaName t = config.["label"] ∧
       t_label t = EmptyString ∧ t_stats t = EmptyString.
Proof.
  intros Hs Hr Hc Hlabel Ha.
  assert (_getLabel this = Ok EmptyString) as Hl.
  { unfold _getLabel. destruct (_hass this); [|done]. rewrite Hc; simpl. by rewrite Ha. }
  assert (_getAreaStatistics this = Ok EmptyString) as Hst.
  { unfold _getAreaStatistics. destruct (_hass this); [|done].
    rewrite Hc; simpl. by rewrite Ha. }
  destruct (render_returns_when this states roomEntity config Hs Hr Hc)
    as (t & Ht & Htl & Hts & Hta); [by left|by eexists..|].
  exists t. rewrite Hl in Htl. rewrite Hst in Hts. auto.
Qed.

(** X18.  After [setConfig(config)] and a push that completes, [render] returns
    the template of a card whenever the area is a non-empty string, the unit
    is falsy or a string, the snapshot has device and entity registries, and
    [getDevice] and [getEntity] return an object for each of their keys. *)
Theorem render_returns (config : Config) (hass : HomeAssistant) (before : Card)
    (area : string) (devices entities : gmap string jsval) :
  is_Ok (out_res (set_hass hass (out_card (setConfig config before)))) →
  config.["area"] = JStr area →
  area ≠ EmptyString →
  ToBoolean config.["unit"] = false ∨ (∃ u, config.["unit"] = JStr u) →
  hass.["devices"] = JObj devices →
  hass.["entities"] = JObj entities →
  (∀ k v, devices !! k = Some v → ∃ d, getDevice hass k = Ok (JObj d)) →
  (∀ k v, entities !! k = Some v → ∃ e, getEntity hass k = Ok (JObj e)) →
  rendered (render (out_card (set_hass hass (out_card (setConfig config before))))) = true.
Proof.
  intros [[] Hok] Harea Hne Hunit Hdevs Hents Hdev Hent.
  set (this := out_card (set_hass hass (out_card (setConfig config before)))).
  assert (_config this = Some (cardConfig config)) as Hc
    by (unfold this; by rewrite set_hass_config, setConfig_held).
  assert (_hass this = Some hass) as Hh by apply set_hass_stored.
  assert (∃ states roomEntity,
            _states this = Some states ∧ _roomEntity this = Some roomEntity)
    as (states & roomEntity & Hs & Hr).
  { destruct (set_hass_returns _ _ Hok)
      as (c & states & roomEntity & pe & px & Hc' & Hs & Hr & Hp).
    exists states, roomEntity. unfold this.
    rewrite (set_hass_ok _ _ _ _ _ _ _ Hc' Hs Hr Hp). cbn [out_card _states _roomEntity].
    by rewrite !gate_value by auto using states_val_inj, entity_val_inj. }
  assert ((cardConfig config).["area"] = JStr area) as Ha
    by by rewrite cardConfig_area.
  assert (ToBoolean (cardConfig config).["area"] = true) as Hta.
  { rewrite Ha. simpl. by rewrite bool_decide_eq_false_2. }
  assert ((cardConfig config).["unit"] = config.["unit"]) as Hu.
  { unfold prop. rewrite cardConfig_lookup. by destruct (config !! "unit"). }
  destruct (render_returns_when this states roomEntity (cardConfig config) Hs Hr Hc)
    as (t & -> & _); [| | |done].
  - right. rewrite (_formatAreaName_string _ _ _ Hc Ha). by eexists.
  - apply (label_unit_returns this hass (cardConfig config) Hh Hc Hta).
    by rewrite Hu.
  - unfold _getAreaStatistics. rewrite Hh, Hc; simpl. rewrite Hta, Hdevs, Hents; simpl.
    destruct (filterM_returns
                (λ k, device ← getDevice hass k;
                      area_id ← get_prop device "area_id";
                      Ok (strict_equal area_id (cardConfig config).["area"]))
                (map_to_list devices).*1) as [ds ->].
    { intros k Hk. apply list_elem_of_fmap in Hk as [[k' v] [Hk Hkv]].
      simpl in Hk. subst k.
      apply elem_of_map_to_list in Hkv. destruct (Hdev _ _ Hkv) as [d ->].
      by eexists. }
    simpl.
    destruct (filterM_returns
                (λ k, entity ← getEntity hass k;
                      area_id ← get_prop entity "area_id";
                      if strict_equal area_id (cardConfig config).["area"] then Ok true
                      else device_id ← get_prop entity "device_id";
                           Ok (includes ds device_id))
                (map_to_list entities).*1) as [es ->].
    { intros k Hk. apply list_elem_of_fmap in Hk as [[k' v] [Hk Hkv]].
      simpl in Hk. subst k.
      apply elem_of_map_to_list in Hkv. destruct (Hent _ _ Hkv) as [e ->].
      simpl. destruct (strict_equal _ _); by eexists. }
    by eexists.
Qed.

End render_facts.

Section reconfiguration_facts.
Context `{Helpers} `{StringPrototype}.

(** X19.  [setConfig] derives nothing anew: a card that is configured again
    renders, until the next push, the icons, the room icon and the problem
    indicator it rendered before, under the name that the new configuration
    gives. *)
Theorem reconfigured_card_keeps_icons (config : Config) (this : Card)
    (t t' : CardTemplate) :
  render this = Ok (html_card t) →
  render (out_card (setConfig config this)) = Ok (html_card t') →
  t_icons t' = t_icons t ∧ t_roomIcon t' = t_roomIcon t ∧
  t_problem t' = t_problem t ∧
  (ToBoolean config.["label"] = true → t_areaName t' = config.["label"]) ∧
  (ToBoolean config.["label"] = false →
   ∃ area, config.["area"] = JStr area ∧
     t_areaName t' =
       JStr (JS.join " "
               ((λ w, toUpperCase (charAt w 0) +:+ slice w 1) <$> JS.split "_" area))).
Proof.
  intros Ht Ht'.
  destruct (render_card _ _ Ht)
    as (states & roomEntity & c & name & Hs & Hr & _ & _ & _ & _ & Hroom & Hicons & Hp).
  destruct (render_card _ _ Ht')
    as (states' & roomEntity' & c' & name' & Hs' & Hr' & Hc' & Hn' & Hf' & _ &
        Hroom' & Hicons' & Hp').
  rewrite setConfig_held in Hc'. injection Hc' as <-.
  rewrite setConfig_ok in Hs', Hr', Hroom', Hicons', Hp'.
  cbn [out_card _states _roomEntity _hass] in Hs', Hr', Hroom', Hicons'.
  unfold _renderProblemIndicator in Hp, Hp'.
  cbn [out_card _problemEntities _problemExists] in Hp'.
  rewrite Hs in Hs'. injection Hs' as <-. rewrite Hr in Hr'. injection Hr' as <-.
  assert ((cardConfig config).["label"] = config.["label"]) as Hl.
  { unfold prop. rewrite cardConfig_lookup. by destruct (config !! "label"). }
  rewrite Hl in Hn', Hf'.
  split_and!; [congruence..| |].
  - intros Hlabel. by rewrite Hn', Hlabel.
  - intros Hlabel. rewrite Hn', Hlabel. specialize (Hf' Hlabel).
    unfold _formatAreaName in Hf'. rewrite setConfig_held in Hf'. simpl in Hf'.
    rewrite cardConfig_area in Hf'.
    destruct (config.["area"]) as [| | |area| |]; simpl in Hf'; try done.
    injection Hf' as <-. by exists area.
Qed.

End reconfiguration_facts.

(** X17 on the fixtures. *)
Lemma render_with_label_only_witness :
  let config : Config := cardConfig {[ "label" := JStr "Salon" ]} in
  ∃ t, render (configured {[ "label" := JStr "Salon" ]} silent_hass) = Ok (html_card t) ∧
       t_areaName t = config.["label"] ∧
       t_label t = EmptyString ∧ t_stats t = EmptyString.
Proof.
  apply (render_with_label_only
           (configured {[ "label" := JStr "Salon" ]} silent_hass) []
           (spec_entityInformation silent_hass JUndef)
           (cardConfig {[ "label" := JStr "Salon" ]})); compute_done.
Defined.

(** X18 on the fixtures. *)
Lemma render_returns_witness :
  rendered (render (out_card (set_hass (kitchen_hass "on")
                                (out_card (setConfig kitchen_config new_card))))) = true.
Proof.
  apply (render_returns kitchen_config (kitchen_hass "on") new_card "kitchen"
           {[ "kettle" := JObj {[ "area_id" := JStr "kitchen" ]} ]}
           {[ "light.kitchen" := JObj {[ "area_id" := JStr "kitchen" ]};
              "switch.kettle" := JObj {[ "device_id" := JStr "kettle" ]};
              "binary_sensor.kitchen_leak" :=
                JObj {[ "area_id" := JStr "kitchen"; "problem" := JBool true ]} ]}).
  - exists (). compute_done.
  - compute_done.
  - done.
  - left. compute_done.
  - compute_done.
  - compute_done.
  - intros k v Hk. apply lookup_singleton_Some in Hk as [<- _].
    exists {[ "area_id" := JStr "kitchen" ]}. compute_done.
  - intros k v Hk.
    apply lookup_insert_Some in Hk as [[<- _]|[_ Hk]].
    { exists {[ "area_id" := JStr "kitchen" ]}. compute_done. }
    apply lookup_insert_Some in Hk as [[<- _]|[_ Hk]].
    { exists {[ "device_id" := JStr "kettle" ]}. compute_done. }
    apply lookup_singleton_Some in Hk as [<- _].
    exists {[ "area_id" := JStr "kitchen"; "problem" := JBool true ]}. compute_done.
Defined.

(** X19 on the fixtures. *)
Lemma reconfigured_card_keeps_icons_witness :
  let this := configured kitchen_config (kitchen_hass "on") in
  let config : Config := {[ "area" := JStr "living_room" ]} in
  ∃ t t', render this = Ok (html_card t) ∧
          render (out_card (setConfig config this)) = Ok (html_card t') ∧
          t_icons t' = t_icons t ∧ length (t_icons t') = 2 ∧
          t_areaName t = JStr "Kitchen" ∧ t_areaName t' = JStr "Living Room".
Proof.
  destruct (rendered_card (render (configured kitchen_config (kitchen_hass "on")))
              ltac:(compute_done)) as [t Ht].
  destruct (rendered_card
              (render (out_card (setConfig {[ "area" := JStr "living_room" ]}
                                   (configured kitchen_config (kitchen_hass "on")))))
              ltac:(compute_done)) as [t' Ht'].
  exists t, t'. split; [exact Ht|]. split; [exact Ht'|].
  destruct (reconfigured_card_keeps_icons _ _ t t' Ht Ht')
    as (Hicons & _ & _ & _ & Hname).
  split; [exact Hicons|].
  destruct (render_card _ _ Ht)
    as (states & ? & c & name & Hs & _ & Hc & Hn & Hf & _ & _ & Hi & _).
  assert (states = spec_entityInformation (kitchen_hass "on") <$>
                     [JStr "light.kitchen"; JStr "switch.kettle"]) as ->
    by (apply (inj Some); rewrite <-Hs; compute_done).
  assert (c = cardConfig kitchen_config) as ->
    by (apply (inj Some); rewrite <-Hc; compute_done).
  split; [by rewrite Hicons, Hi|]. split.
  - rewrite Hn. replace (ToBoolean (cardConfig kitchen_config).["label"]) with false
      by compute_done.
    specialize (Hf ltac:(compute_done)).
    assert (_formatAreaName (configured kitchen_config (kitchen_hass "on")) = Ok "Kitchen")
      as Hk by compute_done.
    congruence.
  - destruct (Hname ltac:(compute_done)) as (area & Ha & ->).
    vm_compute in Ha. injection Ha as <-. compute_done.
Defined.
